(** * CodexJS: decorator metadata, module registration, handler wrapping
      and the Express proxy, embedded in Rocq.

    The development follows the TypeScript sources:
    - [src/decorators/RouteDecorator.ts], [src/decorators/DiDecorators.ts]
    - [src/assertion/assert.ts]
    - [src/core/Proxy.ts]
    - [src/index.ts] (class [Codex]).

    The three libraries the code drives are modelled by what the code can
    observe of them: reflect-metadata as finite maps from classes to the
    values defined on them, looked up along the prototype chain, the typedi container as a
    finite map from classes to lazily created singletons, and the Express
    application and routers as the list of method calls they received. *)

From Stdlib Require Import ZArith Ascii.
From stdpp Require Import gmap strings list fin_maps.

(** ** JavaScript strings: the operations [Codex.baseRoute] uses *)

Module JsString.

Definition slash : ascii := "/"%char.

Definition is_slash (c : ascii) : bool := bool_decide (c = slash).

(** [s.startsWith('/')] *)
Definition startsWith_slash (s : string) : bool :=
  match s with
  | String c _ => is_slash c
  | EmptyString => false
  end.

(** [s.replace(/\/+$/, '')]: the leftmost match of [\/+$] is the maximal
    run of slashes at the end of the input; it is replaced by nothing. *)
Fixpoint strip_trailing_slashes (s : string) : string :=
  match s with
  | EmptyString => EmptyString
  | String c rest =>
      match strip_trailing_slashes rest with
      | EmptyString => if is_slash c then EmptyString else String c EmptyString
      | kept => String c kept
      end
  end.

(** The last character of [s] is a slash. *)
Fixpoint endsWith_slash (s : string) : bool :=
  match s with
  | EmptyString => false
  | String c EmptyString => is_slash c
  | String _ rest => endsWith_slash rest
  end.

(** Every character of [s] is a slash (true of the empty string). *)
Fixpoint only_slashes (s : string) : bool :=
  match s with
  | EmptyString => true
  | String c rest => is_slash c && only_slashes rest
  end.

(** The double-quote character, as a string. *)
Definition dquote : string := String "034"%char EmptyString.

End JsString.

(** ** Values that cross the framework boundary *)

(** Property keys: [string | symbol]. *)
Inductive PropertyKey :=
| KString (s : string)
| KSymbol (n : nat).

#[global] Instance PropertyKey_eq_dec : EqDecision PropertyKey.
Proof. solve_decision. Defined.

#[global] Instance PropertyKey_countable : Countable PropertyKey.
Proof.
  refine (inj_countable'
            (fun k => match k with KString s => inl s | KSymbol n => inr n end)
            (fun x => match x with inl s => KString s | inr n => KSymbol n end) _).
  by intros [].
Defined.

(** A class (constructor function): its identity, its [name] property and
    the identities of the classes on its prototype chain, nearest first
    ([class B extends A] gives [B] the chain [[A]]). *)
Record Class := {
  cls_id : positive;
  cls_name : string;
  cls_parents : list positive;
}.

(** An object created by [new C()]. *)
Record Instance := {
  inst_class : positive;
  inst_serial : nat;
}.

(** Modelled from the spec: the file [src/types/HttpMethod.ts] is missing;
    the verbs are the five that [index.ts] passes to
    [createRouteDecorator] and to [createHttpMethod]. *)
Inductive HttpMethod := GET | POST | PUT | PATCH | DELETE.

Definition method_name (m : HttpMethod) : string :=
  match m with
  | GET => "get" | POST => "post" | PUT => "put"
  | PATCH => "patch" | DELETE => "delete"
  end.

(** Options of [express.urlencoded]. *)
Record UrlEncodedOptions := { extended : bool }.

(** Functions of type [RequestHandler] the program handles: the user's own
    (opaque, told apart by identity) and the ones the framework builds. *)
Inductive RequestHandler :=
| UserHandler (id : nat)
| JsonParser                                    (* express.json() *)
| UrlEncodedParser (options : UrlEncodedOptions) (* express.urlencoded(o) *)
| StaticFiles (resolvedPath : string) (options : option nat)
| DefaultNotFound                               (* the 404 arrow function *)
| WrappedHandler (instance : Instance) (handlerKey : PropertyKey).

(** [RouteMetadata] (appended to [src/types/ModuleRegistration.ts]). *)
Record RouteMetadata := {
  rm_method : HttpMethod;
  rm_path : string;
  rm_handler : PropertyKey;
  rm_middlewares : list RequestHandler;
}.

(** An Express router is known by the calls made on it. *)
Inductive RouterCall :=
| RouterUse (handlers : list RequestHandler)
| RouterVerb (method : string) (path : string) (handlers : list RequestHandler).

Definition Router := list RouterCall.

(** Arguments the program passes to methods of the Express application. *)
Inductive Arg :=
| ArgPath (p : string)
| ArgHandler (h : RequestHandler)
| ArgRouter (r : Router).

(** One method call on the Express application: [app[name](...args)]. *)
Record AppCall := {
  call_name : string;
  call_args : list Arg;
}.

(** [ModuleMetadata]: both fields are optional. *)
Record ModuleMetadata := {
  controllers : option (list Class);
  providers : option (list Class);
}.

(** The reflect-metadata store, one map per key the program uses, from the
    class a value was defined on to that value. Each key holds values of
    one type: the base path string, the middleware list, the routes array
    (held by reference) and the module's metadata object. *)
Record Metadata := {
  codex_controller : gmap positive string;
  codex_middlewares : gmap positive (list RequestHandler);
  codex_routes : gmap positive positive;
  codex_module : gmap positive ModuleMetadata;
}.

(** Errors the program throws or lets through. *)
Inductive JsError :=
| Error (message : string)
| TypeError (message : string)
| ServiceNotFoundError (identifier : positive).

(** [Codex.config] *)
Record Config := {
  jsonEnabled : bool;
  urlEncodedEnabled : bool;
  globalBaseRoute : string;
  globalMiddlewares : list RequestHandler;
  notFoundHandler : option RequestHandler;
}.

(** The state a [Codex] instance works on: the process-wide metadata store,
    array heap and DI container, and the instance's own Express application,
    configuration and console output. *)
Record World := {
  reflect : Metadata;
  arrays : gmap positive (list RouteMetadata);
  container : gmap positive (option Instance);
  next_serial : nat;
  app : list AppCall;
  config : Config;
  console : list string;
}.

Definition set_reflect (m : Metadata) (w : World) : World :=
  {| reflect := m; arrays := arrays w; container := container w;
     next_serial := next_serial w; app := app w; config := config w;
     console := console w |}.

Definition set_arrays (h : gmap positive (list RouteMetadata)) (w : World) : World :=
  {| reflect := reflect w; arrays := h; container := container w;
     next_serial := next_serial w; app := app w; config := config w;
     console := console w |}.

Definition set_container (k : gmap positive (option Instance)) (n : nat) (w : World) : World :=
  {| reflect := reflect w; arrays := arrays w; container := k;
     next_serial := n; app := app w; config := config w;
     console := console w |}.

Definition set_app (a : list AppCall) (w : World) : World :=
  {| reflect := reflect w; arrays := arrays w; container := container w;
     next_serial := next_serial w; app := a; config := config w;
     console := console w |}.

Definition set_config (c : Config) (w : World) : World :=
  {| reflect := reflect w; arrays := arrays w; container := container w;
     next_serial := next_serial w; app := app w; config := c;
     console := console w |}.

Definition set_console (o : list string) (w : World) : World :=
  {| reflect := reflect w; arrays := arrays w; container := container w;
     next_serial := next_serial w; app := app w; config := config w;
     console := o |}.

(** ** Computations that change the world and may throw

    A thrown error stops the computation; what was done before stays done. *)

Inductive Completion (A : Type) :=
| Normal (a : A)
| Throw (e : JsError).
Arguments Normal {A} a.
Arguments Throw {A} e.

Definition Js (A : Type) : Type := World -> World * Completion A.

Definition Js_ret {A} (a : A) : Js A := fun w => (w, Normal a).

Definition Js_throw {A} (e : JsError) : Js A := fun w => (w, Throw e).

Definition Js_bind {A B} (c : Js A) (k : A -> Js B) : Js B :=
  fun w =>
    match c w with
    | (w1, Normal a) => k a w1
    | (w1, Throw e) => (w1, Throw e)
    end.

(** Read from the world. *)
Definition Js_read {A} (f : World -> A) : Js A := fun w => (w, Normal (f w)).

(** Change the world. *)
Definition Js_write (f : World -> World) : Js unit := fun w => (f w, Normal tt).

Declare Scope js_scope.
Delimit Scope js_scope with js.
Notation "x <- c ;; k" := (Js_bind c (fun x => k))
  (at level 100, c at next level, right associativity) : js_scope.
Notation "c ;; k" := (Js_bind c (fun _ => k))
  (at level 100, right associativity) : js_scope.

(** [list.forEach(callback)] *)
Fixpoint forEach {A} (callback : A -> Js unit) (l : list A) : Js unit :=
  match l with
  | [] => Js_ret tt
  | x :: rest => Js_bind (callback x) (fun _ => forEach callback rest)
  end.

(** The world a computation leaves, and how it completed. *)
Definition world_after {A} (r : World * Completion A) : World := fst r.
Definition completion_of {A} (r : World * Completion A) : Completion A := snd r.

Local Open Scope js_scope.

(** ** reflect-metadata *)

(** [OrdinaryGetMetadata]: the value defined on the nearest object of the
    prototype chain that has the key. *)
Fixpoint OrdinaryGetMetadata {V} (defined : gmap positive V)
    (chain : list positive) : option V :=
  match chain with
  | [] => None
  | o :: parents =>
      match defined !! o with
      | Some v => Some v
      | None => OrdinaryGetMetadata defined parents
      end
  end.

(** [Reflect.getMetadata(key, target)]; [None] is [undefined]. *)
Definition Reflect_getMetadata {V} (key : Metadata -> gmap positive V)
    (target : Class) (w : World) : option V :=
  OrdinaryGetMetadata (key (reflect w)) (cls_id target :: cls_parents target).

(** [Reflect.hasMetadata(key, target)] *)
Definition Reflect_hasMetadata {V} (key : Metadata -> gmap positive V)
    (target : Class) (w : World) : bool :=
  match Reflect_getMetadata key target w with
  | Some _ => true
  | None => false
  end.

(** [Reflect.defineMetadata(key, value, target)], key by key: the value is
    defined on the target itself. *)
Definition define_codex_controller (value : string) (target : Class) (w : World) : World :=
  let m := reflect w in
  set_reflect {| codex_controller := <[cls_id target := value]> (codex_controller m);
                 codex_middlewares := codex_middlewares m;
                 codex_routes := codex_routes m;
                 codex_module := codex_module m |} w.

Definition define_codex_middlewares (value : list RequestHandler) (target : Class)
    (w : World) : World :=
  let m := reflect w in
  set_reflect {| codex_controller := codex_controller m;
                 codex_middlewares := <[cls_id target := value]> (codex_middlewares m);
                 codex_routes := codex_routes m;
                 codex_module := codex_module m |} w.

Definition define_codex_routes (value : positive) (target : Class) (w : World) : World :=
  let m := reflect w in
  set_reflect {| codex_controller := codex_controller m;
                 codex_middlewares := codex_middlewares m;
                 codex_routes := <[cls_id target := value]> (codex_routes m);
                 codex_module := codex_module m |} w.

Definition define_codex_module (value : ModuleMetadata) (target : Class) (w : World) : World :=
  let m := reflect w in
  set_reflect {| codex_controller := codex_controller m;
                 codex_middlewares := codex_middlewares m;
                 codex_routes := codex_routes m;
                 codex_module := <[cls_id target := value]> (codex_module m) |} w.

(** ** Arrays held by reference ([routes] in RouteDecorator.ts) *)

(** The array literal [[]]: a new, empty array. *)
Definition new_array (w : World) : positive * World :=
  let ref := fresh (dom (arrays w)) in
  (ref, set_arrays (<[ref := []]> (arrays w)) w).

Definition array_contents (ref : positive) (w : World) : list RouteMetadata :=
  default [] (arrays w !! ref).

(** [array.push(x)] *)
Definition array_push (ref : positive) (x : RouteMetadata) (w : World) : World :=
  set_arrays (<[ref := array_contents ref w ++ [x]]> (arrays w)) w.

(** ** The typedi container

    A class is known to the container once [@Service()] ran on it or a value
    was set for it; its singleton is created by the first [get]. [get] of a
    class the container does not know throws [ServiceNotFoundError]
    (typedi 0.10). *)

(** [Container.has(id)] *)
Definition Container_has (id : Class) (w : World) : bool :=
  match container w !! cls_id id with
  | Some _ => true
  | None => false
  end.

(** [new C()]: a new object of class [C]. *)
Definition new_instance (C : Class) (w : World) : Instance :=
  {| inst_class := cls_id C; inst_serial := next_serial w |}.

(** [Container.set(id, new id())] *)
Definition Container_set_new (id : Class) : Js unit :=
  Js_write (fun w =>
    set_container (<[cls_id id := Some (new_instance id w)]> (container w))
                  (S (next_serial w)) w).

(** [Container.get(id)] *)
Definition Container_get (id : Class) : Js Instance :=
  fun w =>
    match container w !! cls_id id with
    | Some (Some value) => (w, Normal value)
    | Some None =>
        let value := new_instance id w in
        (set_container (<[cls_id id := Some value]> (container w))
                       (S (next_serial w)) w,
         Normal value)
    | None => (w, Throw (ServiceNotFoundError (cls_id id)))
    end.

(** [TypeDiService()(target)]: registers the class, without a value yet. *)
Definition TypeDiService (target : Class) (w : World) : World :=
  set_container (<[cls_id target := None]> (container w)) (next_serial w) w.

(** ** src/assertion/assert.ts *)

Definition isController (target : Class) (w : World) : bool :=
  Reflect_hasMetadata codex_controller target w.

Definition isModule (target : Class) (w : World) : bool :=
  Reflect_hasMetadata codex_module target w.

(** [(target as any).name || '(anonymous class)'] *)
Definition className (target : Class) : string :=
  if decide (cls_name target = "") then "(anonymous class)" else cls_name target.

Definition controller_error (target : Class) : JsError :=
  Error (className target +:+ " is missing @Controller decorator. "
         +:+ "Did you forget to add @Controller() to the class?").

Definition module_error (target : Class) : JsError :=
  Error (" " +:+ className target +:+ " is missing @Module() metadata.").

Definition assertController (target : Class) : Js unit :=
  fun w =>
    if negb (isController target w) then (w, Throw (controller_error target))
    else (w, Normal tt).

Definition assertModule (target : Class) : Js unit :=
  fun w =>
    if negb (isModule target w) then (w, Throw (module_error target))
    else (w, Normal tt).

(** ** src/decorators/DiDecorators.ts

    [Inject] only hands a property over to typedi's own injection and is
    not followed here. *)

Definition Repo (target : Class) (w : World) : World := TypeDiService target w.

Definition Service (target : Class) (w : World) : World := TypeDiService target w.

(** [@Controller(basePath = '', middlewares = [])] *)
Definition Controller (basePath : option string)
    (middlewares : option (list RequestHandler)) (target : Class) (w : World) : World :=
  let basePath := default "" basePath in
  let middlewares := default [] middlewares in
  let w := define_codex_controller basePath target w in
  let w := define_codex_middlewares middlewares target w in
  TypeDiService target w.

(** [@Module(metadata)] *)
Definition Module_ (metadata : ModuleMetadata) (target : Class) (w : World) : World :=
  let w := define_codex_module metadata target w in
  TypeDiService target w.

(** ** src/decorators/RouteDecorator.ts *)

(** [createRouteDecorator(method)(path = '/', middlewares = [])(target, propertyKey)],
    with [target.constructor] the class [C] whose method is decorated. *)
Definition createRouteDecorator (method : HttpMethod) (path : option string)
    (middlewares : option (list RequestHandler))
    (C : Class) (propertyKey : PropertyKey) (w : World) : World :=
  let path := default "/" path in
  let middlewares := default [] middlewares in
  (* const routes = Reflect.getMetadata('codex:routes', C) || [] *)
  let '(routes, w) :=
    match Reflect_getMetadata codex_routes C w with
    | Some ref => (ref, w)
    | None => new_array w
    end in
  let w := array_push routes
             {| rm_method := method; rm_path := path;
                rm_handler := propertyKey; rm_middlewares := middlewares |} w in
  define_codex_routes routes C w.

Definition Get := createRouteDecorator GET.
Definition Post := createRouteDecorator POST.
Definition Put := createRouteDecorator PUT.
Definition Patch := createRouteDecorator PATCH.
Definition Delete := createRouteDecorator DELETE.

(** ** src/types/ModuleRegistration.ts, as the values that can reach
    [registerModules] at run time *)

(** The [modules] property of a registration object. *)
Inductive ModulesProperty :=
| ModulesAbsent                       (* 'modules' in item is false *)
| ModulesNotArray                     (* present, Array.isArray is false *)
| ModulesArray (mods : list Class).

Record RegistrationObject := {
  reg_route : option string;
  reg_middlewares : option (list RequestHandler);
  reg_modules : ModulesProperty;
}.

(** Values that are neither functions nor objects. *)
Inductive Primitive :=
| PUndefined
| PNull
| PBoolean (b : bool)
| PNumber (z : Z)
| PString (s : string).

Inductive ModuleRegistration :=
| ItemFunction (C : Class)            (* typeof item === 'function' *)
| ItemObject (o : RegistrationObject)
| ItemPrimitive (v : Primitive).

(** ** src/index.ts: class Codex *)

Definition new_Config : Config :=
  {| jsonEnabled := false; urlEncodedEnabled := false; globalBaseRoute := "";
     globalMiddlewares := []; notFoundHandler := None |}.

Definition set_jsonEnabled (b : bool) (c : Config) : Config :=
  {| jsonEnabled := b; urlEncodedEnabled := urlEncodedEnabled c;
     globalBaseRoute := globalBaseRoute c;
     globalMiddlewares := globalMiddlewares c;
     notFoundHandler := notFoundHandler c |}.

Definition set_urlEncodedEnabled (b : bool) (c : Config) : Config :=
  {| jsonEnabled := jsonEnabled c; urlEncodedEnabled := b;
     globalBaseRoute := globalBaseRoute c;
     globalMiddlewares := globalMiddlewares c;
     notFoundHandler := notFoundHandler c |}.

Definition set_globalBaseRoute (s : string) (c : Config) : Config :=
  {| jsonEnabled := jsonEnabled c; urlEncodedEnabled := urlEncodedEnabled c;
     globalBaseRoute := s;
     globalMiddlewares := globalMiddlewares c;
     notFoundHandler := notFoundHandler c |}.

(** [this.app[name](...args)] *)
Definition express (name : string) (args : list Arg) : Js unit :=
  Js_write (fun w => set_app (app w ++ [{| call_name := name; call_args := args |}]) w).

Definition console_log (line : string) : Js unit :=
  Js_write (fun w => set_console (console w ++ [line]) w).

(** [createHttpMethod(method)(path, ...handlers)] *)
Definition createHttpMethod (method : HttpMethod) (path : string)
    (handlers : list RequestHandler) : Js unit :=
  base <- Js_read (fun w => globalBaseRoute (config w)) ;;
  let fullPath := base +:+ path in
  express (method_name method) (ArgPath fullPath :: map ArgHandler handlers).

Definition baseRoute (path : string) : Js unit :=
  Js_write (fun w =>
    if bool_decide (path = "") || bool_decide (path = "/") then
      set_config (set_globalBaseRoute "" (config w)) w
    else
      let w := set_config (set_globalBaseRoute
                 (if JsString.startsWith_slash path then path else "/" +:+ path)
                 (config w)) w in
      set_config (set_globalBaseRoute
        (JsString.strip_trailing_slashes (globalBaseRoute (config w)))
        (config w)) w).

Definition use (args : list Arg) : Js unit := express "use" args.

Definition useBefore (middlewares : list RequestHandler) : Js unit :=
  if 0 <? length middlewares then express "use" (map ArgHandler middlewares)
  else Js_ret tt.

Definition handleNotFound (handler : option RequestHandler) : Js unit :=
  stored <- Js_read (fun w => notFoundHandler (config w)) ;;
  let finalHandler :=
    match handler with
    | Some h => h
    | None => match stored with
              | Some h => h
              | None => DefaultNotFound
              end
    end in
  express "use" [ArgHandler finalHandler].

Definition enableJson : Js unit :=
  enabled <- Js_read (fun w => jsonEnabled (config w)) ;;
  if negb enabled then
    express "use" [ArgHandler JsonParser] ;;
    Js_write (fun w => set_config (set_jsonEnabled true (config w)) w) ;;
    console_log "✓ JSON body parsing enabled"
  else Js_ret tt.

(** [enableUrlEncoded(options = { extended: true })] *)
Definition enableUrlEncoded (options : option UrlEncodedOptions) : Js unit :=
  let options := default {| extended := true |} options in
  enabled <- Js_read (fun w => urlEncodedEnabled (config w)) ;;
  if negb enabled then
    express "use" [ArgHandler (UrlEncodedParser options)] ;;
    Js_write (fun w => set_config (set_urlEncodedEnabled true (config w)) w) ;;
    console_log "✓ URL-encoded body parsing enabled"
  else Js_ret tt.

(** [createHandler(instance, handlerKey)]: the async closure; what it does
    when a request arrives is [handle_request] below. *)
Definition createHandler (instance : Instance) (handlerKey : PropertyKey)
    : RequestHandler :=
  WrappedHandler instance handlerKey.

(** [Reflect.getMetadata('codex:controller', C) || ''] *)
Definition read_basePath (C : Class) (w : World) : string :=
  default "" (Reflect_getMetadata codex_controller C w).

(** [Reflect.getMetadata('codex:middlewares', C) || []] *)
Definition read_middlewares (C : Class) (w : World) : list RequestHandler :=
  default [] (Reflect_getMetadata codex_middlewares C w).

(** [Reflect.getMetadata('codex:routes', C) || []] *)
Definition read_routes (C : Class) (w : World) : list RouteMetadata :=
  match Reflect_getMetadata codex_routes C w with
  | Some ref => array_contents ref w
  | None => []
  end.

(** [const metadata = Reflect.getMetadata('codex:module', C)] followed by
    the destructuring [{ controllers = [], providers = [] } = metadata],
    which throws when [metadata] is [undefined]. *)
Definition read_module (C : Class) : Js ModuleMetadata :=
  fun w =>
    match Reflect_getMetadata codex_module C w with
    | Some m => (w, Normal m)
    | None => (w, Throw (TypeError "Cannot destructure 'metadata' as it is undefined."))
    end.

(** [if (ms.length > 0) router.use(...ms)] *)
Definition router_use (ms : list RequestHandler) (router : Router) : Router :=
  if 0 <? length ms then router ++ [RouterUse ms] else router.

(** [routes.forEach(({method, path, handler, middlewares}) =>
       router[method](path, ...middlewares, this.createHandler(instance, handler)))] *)
Definition router_routes (instance : Instance) (routes : list RouteMetadata)
    (router : Router) : Router :=
  fold_left (fun router r =>
      let wrappedHandler := createHandler instance (rm_handler r) in
      router ++ [RouterVerb (method_name (rm_method r)) (rm_path r)
                            (rm_middlewares r ++ [wrappedHandler])])
    routes router.

(** [registerControllers(controllers)]: the callback of its [forEach]. *)
Definition registerController (ControllerClass : Class) : Js unit :=
  assertController ControllerClass ;;
  basePath <- Js_read (read_basePath ControllerClass) ;;
  let router : Router := [] in                           (* ExpressRouter() *)
  globals <- Js_read (fun w => globalMiddlewares (config w)) ;;
  let router := router_use globals router in
  controllerMiddlewares <- Js_read (read_middlewares ControllerClass) ;;
  let router := router_use controllerMiddlewares router in
  instance <- Container_get ControllerClass ;;
  routes <- Js_read (read_routes ControllerClass) ;;
  let router := router_routes instance routes router in
  base <- Js_read (fun w => globalBaseRoute (config w)) ;;
  express "use" [ArgPath (base +:+ basePath); ArgRouter router] ;;
  console_log ("✓ Registered controller: " +:+ cls_name ControllerClass
               +:+ " at " +:+ base +:+ basePath).

Definition registerControllers (controllers : list Class) : Js unit :=
  forEach registerController controllers.

(** [registerProviders(providers)] (private, not called). *)
Definition registerProviders (providers : list Class) : Js unit :=
  forEach (fun provider =>
    known <- Js_read (Container_has provider) ;;
    if negb known then
      Container_get provider ;;
      console_log ("✓ Registered provider: " +:+ cls_name provider)
    else Js_ret tt) providers.

(** [registerModules], first branch: the item is a class. *)
Definition registerModuleClass (item : Class) : Js unit :=
  assertModule item ;;
  metadata <- read_module item ;;
  let controllers := default [] (controllers metadata) in
  let providers := default [] (providers metadata) in
  forEach (fun provider =>
    known <- Js_read (Container_has provider) ;;
    if negb known then Container_set_new provider else Js_ret tt) providers ;;
  (if 0 <? length controllers then registerControllers controllers
   else Js_ret tt) ;;
  console_log ("✓ Loaded module: " +:+ cls_name item).

(** [registerModules], second branch: the callback of
    [controllers.forEach] inside a group. *)
Definition registerGroupController (routePrefix : string)
    (middlewares : list RequestHandler) (ControllerClass : Class) : Js unit :=
  assertController ControllerClass ;;
  basePath <- Js_read (read_basePath ControllerClass) ;;
  let router : Router := [] in                           (* ExpressRouter() *)
  let router := router_use middlewares router in
  controllerMiddlewares <- Js_read (read_middlewares ControllerClass) ;;
  let router := router_use controllerMiddlewares router in
  instance <- Container_get ControllerClass ;;
  routes <- Js_read (read_routes ControllerClass) ;;
  let router := router_routes instance routes router in
  base <- Js_read (fun w => globalBaseRoute (config w)) ;;
  express "use" [ArgPath (base +:+ routePrefix +:+ basePath); ArgRouter router] ;;
  console_log ("✓ Registered controller: " +:+ cls_name ControllerClass
               +:+ " at " +:+ base +:+ routePrefix +:+ basePath).

(** [registerModules], second branch: the callback of
    [item.modules.forEach]. *)
Definition registerGroupModule (routePrefix : string)
    (middlewares : list RequestHandler) (module : Class) : Js unit :=
  assertModule module ;;
  metadata <- read_module module ;;
  let controllers := default [] (controllers metadata) in
  let providers := default [] (providers metadata) in
  forEach (fun provider =>
    known <- Js_read (Container_has provider) ;;
    if negb known then (Container_get provider ;; Js_ret tt) else Js_ret tt)
    providers ;;
  (if 0 <? length controllers then
     forEach (registerGroupController routePrefix middlewares) controllers
   else Js_ret tt) ;;
  console_log ("✓ Loaded module: " +:+ cls_name module).

(** The callback of [registrations.forEach]. *)
Definition registerItem (item : ModuleRegistration) : Js unit :=
  match item with
  | ItemFunction C => registerModuleClass C
  | ItemObject o =>
      match reg_modules o with
      | ModulesArray mods =>
          let routePrefix := default "" (reg_route o) in
          let middlewares := default [] (reg_middlewares o) in
          forEach (registerGroupModule routePrefix middlewares) mods
      | ModulesAbsent | ModulesNotArray => Js_ret tt
      end
  | ItemPrimitive _ =>
      (* 'modules' in item, with item not an object *)
      Js_throw (TypeError "Cannot use 'in' operator to search for 'modules'")
  end.

Definition registerModules (registrations : list ModuleRegistration) : Js unit :=
  forEach registerItem registrations.

Section StaticFiles.

(** [path.resolve(process.cwd(), dirPath)], as a function of [dirPath]. *)
Variable resolve_from_cwd : string -> string.

Definition serveStatic (dirPath : string) (route : option string)
    (options : option nat) : Js unit :=
  let resolvedPath := resolve_from_cwd dirPath in
  let mountPath :=
    match route with
    | Some r =>
        if bool_decide (r = "") then "/"
        else if JsString.startsWith_slash r then r else "/" +:+ r
    | None => "/"
    end in
  console_log ("Serving static files from " +:+ JsString.dquote +:+ resolvedPath
               +:+ JsString.dquote +:+ " at route " +:+ JsString.dquote
               +:+ mountPath +:+ JsString.dquote) ;;
  express "use" [ArgPath mountPath; ArgHandler (StaticFiles resolvedPath options)].

(** The chainable calls a program can make on a [Codex] object. *)
Inductive CodexCall :=
| CallVerb (method : HttpMethod) (path : string) (handlers : list RequestHandler)
| CallBaseRoute (path : string)
| CallUse (args : list Arg)
| CallUseBefore (middlewares : list RequestHandler)
| CallHandleNotFound (handler : option RequestHandler)
| CallEnableJson
| CallEnableUrlEncoded (options : option UrlEncodedOptions)
| CallServeStatic (dirPath : string) (route : option string) (options : option nat)
| CallRegisterModules (registrations : list ModuleRegistration).

Definition perform (c : CodexCall) : Js unit :=
  match c with
  | CallVerb method path handlers => createHttpMethod method path handlers
  | CallBaseRoute path => baseRoute path
  | CallUse args => use args
  | CallUseBefore middlewares => useBefore middlewares
  | CallHandleNotFound handler => handleNotFound handler
  | CallEnableJson => enableJson
  | CallEnableUrlEncoded options => enableUrlEncoded options
  | CallServeStatic dirPath route options => serveStatic dirPath route options
  | CallRegisterModules registrations => registerModules registrations
  end.

(** A program's calls one after the other; a call that throws leaves the
    world as it was when it threw, and the program may go on. *)
Fixpoint perform_all (calls : list CodexCall) (w : World) : World :=
  match calls with
  | [] => w
  | c :: rest => perform_all rest (world_after (perform c w))
  end.

End StaticFiles.

(** [new Codex()] in an environment [env] of decorated classes: a new
    Express application and the initial configuration. *)
Definition new_Codex (env : World) : World :=
  set_config new_Config (set_app [] env).

(** The environment before any decorator ran. *)
Definition empty_world : World :=
  {| reflect := {| codex_controller := ∅; codex_middlewares := ∅;
                   codex_routes := ∅; codex_module := ∅ |};
     arrays := ∅; container := ∅; next_serial := 0;
     app := []; config := new_Config; console := [] |}.

(** ** Requests: what the closure built by [createHandler] does *)

Inductive JsValue :=
| VUndefined
| VNull
| VBoolean (b : bool)
| VNumber (z : Z)
| VString (s : string)
| VError (message : string)
| VObject (ref : nat)
| VFunction (label : string).

#[global] Instance JsValue_eq_dec : EqDecision JsValue.
Proof. solve_decision. Defined.

(** [a === b] *)
Definition strict_equal (a b : JsValue) : bool := bool_decide (a = b).

Inductive PromiseState :=
| Pending
| Fulfilled (value : JsValue)
| Rejected (reason : JsValue).

(** What a call of a controller method gives back. *)
Inductive Returned :=
| Plain (value : JsValue)
| Promise (state : PromiseState).

Inductive Outcome :=
| Returns (r : Returned)
| Throws (error : JsValue).

Record Request := { originalUrl : string }.

(** The response object: whether the headers went out, and the bodies
    written so far. *)
Record Response := {
  headersSent : bool;
  written : list JsValue;
}.

(** One run of a controller method: the response as the method left it when
    the wrapper resumes, the errors the method itself handed to [next], and
    how the call ended. *)
Record Invocation := {
  inv_response : Response;
  inv_next : list JsValue;
  inv_outcome : Outcome;
}.

Definition Method := Request -> Response -> Invocation.

(** Calls the wrapper itself makes. *)
Inductive WrapperCall :=
| CallResJson (body : JsValue)
| CallNext (error : JsValue).

Record Handled := {
  final_response : Response;
  wrapper_calls : list WrapperCall;
}.

(** [await r] *)
Inductive Awaited :=
| AwaitValue (v : JsValue)
| AwaitThrows (error : JsValue)
| AwaitNever.

Definition await (r : Returned) : Awaited :=
  match r with
  | Plain v => AwaitValue v
  | Promise (Fulfilled v) => AwaitValue v
  | Promise (Rejected e) => AwaitThrows e
  | Promise Pending => AwaitNever
  end.

Section HandleRequest.

(** [instance[handlerKey]] when it is callable. *)
Variable methods : Instance -> PropertyKey -> option Method.

(** Express's [res.json(body)]: the response afterwards, and the error it
    threw if it did. *)
Variable res_json : JsValue -> Response -> Response * option JsValue.

(** The body of the closure returned by [createHandler(instance, handlerKey)],
    run on [(req, res, next)]. *)
Definition handle_request (instance : Instance) (handlerKey : PropertyKey)
    (req : Request) (res : Response) : Handled :=
  match methods instance handlerKey with
  | None =>
      {| final_response := res;
         wrapper_calls := [CallNext (VError "instance[handlerKey] is not a function")] |}
  | Some method =>
      let inv := method req res in
      let res := inv_response inv in
      match inv_outcome inv with
      | Throws error =>
          {| final_response := res; wrapper_calls := [CallNext error] |}
      | Returns r =>
          match await r with
          | AwaitThrows error =>
              {| final_response := res; wrapper_calls := [CallNext error] |}
          | AwaitNever =>
              {| final_response := res; wrapper_calls := [] |}
          | AwaitValue result =>
              if negb (strict_equal result VUndefined) && negb (headersSent res) then
                match res_json result res with
                | (res, None) =>
                    {| final_response := res;
                       wrapper_calls := [CallResJson result] |}
                | (res, Some error) =>
                    {| final_response := res;
                       wrapper_calls := [CallResJson result; CallNext error] |}
                end
              else {| final_response := res; wrapper_calls := [] |}
          end
      end
  end.

End HandleRequest.

(** ** src/core/Proxy.ts *)

(** The Express application object: its identity and its properties. *)
Record ExpressApp := {
  app_ref : nat;
  app_props : PropertyKey -> JsValue;
}.

(** A [Codex] object: its own properties (the constructor assigns the five
    verb methods; the field initialisers assign [app] and [config]; a
    program may add more) and the Express application it wraps. Methods of
    the class live on [Codex.prototype], below it [Object.prototype]. *)
Record CodexObject := {
  own_props : gmap PropertyKey JsValue;
  codex_app : ExpressApp;
}.

Definition Codex_prototype : list string :=
  [ "constructor"; "instance"; "createHttpMethod"; "baseRoute"; "use";
    "useBefore"; "handleNotFound"; "enableJson"; "enableUrlEncoded";
    "serveStatic"; "registerModules"; "registerControllers";
    "registerProviders"; "createHandler" ].

Definition Object_prototype : list string :=
  [ "constructor"; "hasOwnProperty"; "isPrototypeOf"; "propertyIsEnumerable";
    "toLocaleString"; "toString"; "valueOf"; "__proto__";
    "__defineGetter__"; "__defineSetter__"; "__lookupGetter__";
    "__lookupSetter__" ].

Definition on_prototypes (prop : PropertyKey) : bool :=
  match prop with
  | KString name =>
      bool_decide (name ∈ Codex_prototype) || bool_decide (name ∈ Object_prototype)
  | KSymbol _ => false
  end.

(** [prop in target] *)
Definition has_property (target : CodexObject) (prop : PropertyKey) : bool :=
  match own_props target !! prop with
  | Some _ => true
  | None => on_prototypes prop
  end.

(** The object [Codex.prototype], which [__proto__] evaluates to on a
    [Codex] object; reference 0 stands for it. *)
Definition Codex_prototype_object : JsValue := VObject 0.

(** [Reflect.get(target, prop, receiver)]; a method found on a prototype is
    the function labelled by its name, [__proto__] is the prototype. *)
Definition Reflect_get (target : CodexObject) (prop : PropertyKey) : JsValue :=
  match own_props target !! prop with
  | Some v => v
  | None =>
      match prop with
      | KString name =>
          if bool_decide (name = "__proto__") then Codex_prototype_object
          else if on_prototypes prop then VFunction name else VUndefined
      | KSymbol _ => VUndefined
      end
  end.

Definition blocked : list string :=
  [ "use"; "enableJson"; "enableUrlEncoded"; "registerModules" ].

(** [blocked.includes(prop as string)] *)
Definition blocked_includes (prop : PropertyKey) : bool :=
  match prop with
  | KString name => bool_decide (name ∈ blocked)
  | KSymbol _ => false
  end.

(** [target.app]: the Express application object the [Codex] object wraps. *)
Definition the_app (target : CodexObject) : JsValue :=
  VObject (app_ref (codex_app target)).

Section Proxy.

(** The state functions of the Express application work on. *)
Variable S : Type.

(** [f.apply(thisArg, args)] for a function of the Express application:
    the state afterwards and the value returned or the error thrown. *)
Variable js_apply : string -> JsValue -> list JsValue -> S -> S * (JsValue + JsValue).

(** What a property read through the proxy gives: a value, or the arrow
    function built around a function of the Express application. *)
Inductive Got :=
| GotValue (v : JsValue)
| GotArrow (call : list JsValue -> S -> S * (JsValue + JsValue)).

(** The arrow function [(...args) => { ... }] of [proxyHandler]. *)
Definition arrow (value : string) (target : CodexObject) (receiver : JsValue)
    (args : list JsValue) (s : S) : S * (JsValue + JsValue) :=
  match js_apply value (the_app target) args s with
  | (s, inl result) =>
      (s, inl (if strict_equal result (the_app target) then receiver else result))
  | (s, inr error) => (s, inr error)
  end.

Definition proxyHandler (target : CodexObject) (prop : PropertyKey)
    (receiver : JsValue) : Got :=
  if has_property target prop then GotValue (Reflect_get target prop)
  else if blocked_includes prop then GotValue (Reflect_get target prop)
  else
    let value := app_props (codex_app target) prop in
    match value with
    | VFunction f => GotArrow (arrow f target receiver)
    | _ => GotValue value
    end.

End Proxy.

Arguments GotValue {S} v.
Arguments GotArrow {S} call.
Arguments arrow {S} js_apply value target receiver args s.
Arguments proxyHandler {S} js_apply target prop receiver.

(** [new Codex()], before the proxy is put around it: the field
    initialisers set [app] and [config], the constructor the five verb
    methods. *)
Definition Codex_constructor (express_app : ExpressApp) (config_ref : nat) : CodexObject :=
  {| own_props :=
       list_to_map
         [ (KString "app", VObject (app_ref express_app));
           (KString "config", VObject config_ref);
           (KString "get", VFunction "createHttpMethod(get)");
           (KString "post", VFunction "createHttpMethod(post)");
           (KString "put", VFunction "createHttpMethod(put)");
           (KString "delete", VFunction "createHttpMethod(delete)");
           (KString "patch", VFunction "createHttpMethod(patch)") ];
     codex_app := express_app |}.

(** ** Decorations: the decorators a program applies while its classes
    are defined *)

Inductive Decoration :=
| DecController (basePath : option string)
    (middlewares : option (list RequestHandler)) (target : Class)
| DecModule (metadata : ModuleMetadata) (target : Class)
| DecService (target : Class)
| DecRepo (target : Class)
| DecRoute (method : HttpMethod) (path : option string)
    (middlewares : option (list RequestHandler))
    (C : Class) (propertyKey : PropertyKey).

Definition decorate (d : Decoration) (w : World) : World :=
  match d with
  | DecController basePath middlewares target => Controller basePath middlewares target w
  | DecModule metadata target => Module_ metadata target w
  | DecService target => Service target w
  | DecRepo target => Repo target w
  | DecRoute method path middlewares C propertyKey =>
      createRouteDecorator method path middlewares C propertyKey w
  end.

Definition decorate_all (ds : list Decoration) (w : World) : World :=
  fold_left (fun w d => decorate d w) ds w.

(** ** Vocabulary of the statements *)

(** A computation never leaves a world unrelated by [R] to the one it
    started in, however it completes. *)
Definition respects (R : World -> World -> Prop) {A} (c : Js A) : Prop :=
  forall w, R w (world_after (c w)).

(** Flags that were set are still set. *)
Definition flags_kept (w w' : World) : Prop :=
  (jsonEnabled (config w) = true -> jsonEnabled (config w') = true)
  /\ (urlEncodedEnabled (config w) = true -> urlEncodedEnabled (config w') = true).

(** The Express application received more calls, each satisfying [Q]. *)
Definition app_grows (Q : AppCall -> Prop) (w w' : World) : Prop :=
  exists calls, app w' = app w ++ calls /\ Forall Q calls.

(** A call [app.use(base + rest, router)] for some [rest] and [router]. *)
Definition mounts_under (base : string) (c : AppCall) : Prop :=
  exists rest router,
    c = {| call_name := "use";
           call_args := [ArgPath (base +:+ rest); ArgRouter router] |}.

(** Registration reads but does not write the metadata, the arrays and the
    configuration; the container only learns: what it knew and what it had
    built stay. *)
Definition registration_step (w w' : World) : Prop :=
  reflect w' = reflect w
  /\ arrays w' = arrays w
  /\ config w' = config w
  /\ (forall id, is_Some (container w !! id) -> is_Some (container w' !! id))
  /\ (forall id value, container w !! id = Some (Some value) ->
                       container w' !! id = Some (Some value)).

(** What a registration pass started in [w] may have done by [w']: nothing
    but learn in the container and mount routers under the base route. *)
Definition registers (w w' : World) : Prop :=
  registration_step w w'
  /\ app_grows (mounts_under (globalBaseRoute (config w))) w w'.

(** The decoration puts [@Controller] or [@Module] on the class [C] itself. *)
Definition redecorates (C : Class) (d : Decoration) : bool :=
  match d with
  | DecController _ _ target | DecModule _ target =>
      bool_decide (cls_id target = cls_id C)
  | DecService _ | DecRepo _ | DecRoute _ _ _ _ _ => false
  end.

(** The route decorator that records the descriptor [r] on class [C]. *)
Definition route_decoration (C : Class) (r : RouteMetadata) : Decoration :=
  DecRoute (rm_method r) (Some (rm_path r)) (Some (rm_middlewares r)) C (rm_handler r).

(** ** Vocabulary of the mounting statement *)

(** The controllers and providers registration reads from a module class:
    the destructuring defaults make a missing list empty. *)
Definition module_controllers (M : Class) (w : World) : list Class :=
  match Reflect_getMetadata codex_module M w with
  | Some m => default [] (controllers m)
  | None => []
  end.

Definition module_providers (M : Class) (w : World) : list Class :=
  match Reflect_getMetadata codex_module M w with
  | Some m => default [] (providers m)
  | None => []
  end.

(** One controller to mount: under which route prefix and behind which
    middlewares of the group (or of the configuration). *)
Record Mount := {
  mount_prefix : string;
  mount_middlewares : list RequestHandler;
  mount_class : Class;
}.

(** The controllers a registration item asks to mount, in order. *)
Definition item_mounts (w : World) (item : ModuleRegistration) : list Mount :=
  match item with
  | ItemFunction M =>
      map (fun C => {| mount_prefix := "";
                       mount_middlewares := globalMiddlewares (config w);
                       mount_class := C |})
          (module_controllers M w)
  | ItemObject o =>
      match reg_modules o with
      | ModulesArray mods =>
          flat_map (fun M =>
            map (fun C => {| mount_prefix := default "" (reg_route o);
                             mount_middlewares := default [] (reg_middlewares o);
                             mount_class := C |})
                (module_controllers M w)) mods
      | ModulesAbsent | ModulesNotArray => []
      end
  | ItemPrimitive _ => []
  end.

Definition planned_mounts (w : World) (registrations : list ModuleRegistration)
    : list Mount :=
  flat_map (item_mounts w) registrations.

(** One [router.use(...ms)] when there are middlewares, none otherwise. *)
Definition use_if_any (ms : list RequestHandler) : Router :=
  match ms with
  | [] => []
  | _ :: _ => [RouterUse ms]
  end.

(** The router of a mounted controller, written out: a new router that got
    the group's middlewares (if any), then the controller's (if any), then
    one route per descriptor of the class, in order, whose last handler is
    the one wrapped around [instance]. *)
Definition expected_router (w : World) (m : Mount) (instance : Instance) : Router :=
  use_if_any (mount_middlewares m)
  ++ use_if_any (read_middlewares (mount_class m) w)
  ++ map (fun r =>
            RouterVerb (method_name (rm_method r)) (rm_path r)
              (rm_middlewares r ++ [WrappedHandler instance (rm_handler r)]))
         (read_routes (mount_class m) w).

(** [call] mounts the controller of [m], as read in [w], with the instance
    the container of [w'] holds for its class. *)
Definition mounted (w w' : World) (m : Mount) (call : AppCall) : Prop :=
  exists instance,
    container w' !! cls_id (mount_class m) = Some (Some instance)
    /\ call = {| call_name := "use";
                 call_args :=
                   [ArgPath (globalBaseRoute (config w) +:+ mount_prefix m
                             +:+ read_basePath (mount_class m) w);
                    ArgRouter (expected_router w m instance)] |}.

(** Run in [w], the computation completes normally and mounts [ms], in
    order, by as many calls on the Express application. *)
Definition mounts_ok (ms : list Mount) (c : Js unit) (w : World) : Prop :=
  exists w' calls,
    c w = (w', Normal tt)
    /\ registration_step w w'
    /\ app w' = app w ++ calls
    /\ Forall2 (mounted w w') ms calls.

(** The class carries [@Controller] and the container knows it. *)
Definition controller_ready (w : World) (C : Class) : bool :=
  isController C w && Container_has C w.

(** The class carries [@Module], its controllers are ready and, inside a
    group, the container knows its providers. *)
Definition module_ready (grouped : bool) (w : World) (M : Class) : bool :=
  isModule M w
  && forallb (controller_ready w) (module_controllers M w)
  && (negb grouped || forallb (fun P => Container_has P w) (module_providers M w)).

Definition item_ready (w : World) (item : ModuleRegistration) : bool :=
  match item with
  | ItemFunction M => module_ready false w M
  | ItemObject o =>
      match reg_modules o with
      | ModulesArray mods => forallb (module_ready true w) mods
      | ModulesAbsent | ModulesNotArray => true
      end
  | ItemPrimitive _ => false
  end.

Definition registrable (w : World) (registrations : list ModuleRegistration) : bool :=
  forallb (item_ready w) registrations.

(** ** A small program, used to run the model *)

Module Sample.

Definition UserController : Class :=
  {| cls_id := 1; cls_name := "UserController"; cls_parents := [] |}.

Definition UserService : Class :=
  {| cls_id := 2; cls_name := "UserService"; cls_parents := [] |}.

Definition UserModule : Class :=
  {| cls_id := 3; cls_name := "UserModule"; cls_parents := [] |}.

Definition AdminController : Class :=
  {| cls_id := 4; cls_name := "AdminController"; cls_parents := [] |}.

Definition AdminModule : Class :=
  {| cls_id := 5; cls_name := "AdminModule"; cls_parents := [] |}.

Definition authenticate : RequestHandler := UserHandler 1.
Definition logger : RequestHandler := UserHandler 2.
Definition validate : RequestHandler := UserHandler 3.

(** The decorators of the program, in the order they run. *)
Definition decorations : list Decoration :=
  [ DecService UserService;
    DecRoute GET None None UserController (KString "list");
    DecRoute POST (Some "/") (Some [validate]) UserController (KString "create");
    DecController (Some "/users") None UserController;
    DecModule {| controllers := Some [UserController];
                 providers := Some [UserService] |} UserModule;
    DecRoute GET (Some "/dashboard") None AdminController (KString "dashboard");
    DecController (Some "/admin") (Some [authenticate]) AdminController;
    DecModule {| controllers := Some [AdminController]; providers := None |}
              AdminModule ].

Definition env : World := decorate_all decorations empty_world.

Definition registrations : list ModuleRegistration :=
  [ ItemFunction UserModule;
    ItemObject {| reg_route := Some "/api";
                  reg_middlewares := Some [logger];
                  reg_modules := ModulesArray [AdminModule] |} ].

(** A [Codex] object of the program after [baseRoute('v1/')]. *)
Definition codex : World := world_after (baseRoute "v1/" (new_Codex env)).

(** The decorators that run after [@Controller] on [UserController]. *)
Definition later_decorations : list Decoration := drop 4 decorations.

(** [path.resolve] from the working directory [/srv]. *)
Definition resolve (dirPath : string) : string := "/srv/" +:+ dirPath.

(** An object with a [route] but no [modules]. *)
Definition no_modules : RegistrationObject :=
  {| reg_route := Some "/x"; reg_middlewares := None; reg_modules := ModulesAbsent |}.

Definition controller_instance : Instance := {| inst_class := 1; inst_serial := 0 |}.

Definition request : Request := {| originalUrl := "/users" |}.

Definition response : Response := {| headersSent := false; written := [] |}.

(** [res.json] of a response that takes every body. *)
Definition res_json (body : JsValue) (res : Response) : Response * option JsValue :=
  ({| headersSent := true; written := written res ++ [body] |}, None).

(** [list() { return 7 }] *)
Definition returns_seven : Method :=
  fun req res =>
    {| inv_response := res; inv_next := []; inv_outcome := Returns (Plain (VNumber 7)) |}.

(** [create(req, res) { res.send('created'); return 7 }] *)
Definition sends_then_returns : Method :=
  fun req res =>
    {| inv_response := {| headersSent := true;
                          written := written res ++ [VString "created"] |};
       inv_next := [];
       inv_outcome := Returns (Plain (VNumber 7)) |}.

(** [async remove() { throw new Error('gone') }] *)
Definition rejects : Method :=
  fun req res =>
    {| inv_response := res; inv_next := [];
       inv_outcome := Returns (Promise (Rejected (VError "gone"))) |}.

Definition methods (instance : Instance) (key : PropertyKey) : option Method :=
  match key with
  | KString "list" => Some returns_seven
  | KString "create" => Some sends_then_returns
  | KString "remove" => Some rejects
  | _ => None
  end.

(** An Express application with [set] and [listen] and a [locals] object;
    its functions log their calls; [set] returns the application. *)
Definition express_app : ExpressApp :=
  {| app_ref := 10;
     app_props := fun prop =>
       match prop with
       | KString "set" => VFunction "set"
       | KString "listen" => VFunction "listen"
       | KString "locals" => VObject 11
       | _ => VUndefined
       end |}.

Definition js_apply (f : string) (this : JsValue) (args : list JsValue)
    (log : list (string * list JsValue))
    : list (string * list JsValue) * (JsValue + JsValue) :=
  (log ++ [(f, args)],
   inl (if bool_decide (f = "set") then this else VObject 12)).

Definition codex_object : CodexObject := Codex_constructor express_app 13.

Definition proxy : JsValue := VObject 14.

End Sample.

(** ** Vocabulary of further statements *)

(** What every call on a [Codex] object leaves in place: the metadata and
    the route arrays, the calls the Express application already received,
    what the container knew and had built, and the two configuration
    fields no method assigns. *)
Definition api_step (w w' : World) : Prop :=
  reflect w' = reflect w
  /\ arrays w' = arrays w
  /\ app w `prefix_of` app w'
  /\ (forall id, is_Some (container w !! id) -> is_Some (container w' !! id))
  /\ (forall id value, container w !! id = Some (Some value) ->
                       container w' !! id = Some (Some value))
  /\ globalMiddlewares (config w') = globalMiddlewares (config w)
  /\ notFoundHandler (config w') = notFoundHandler (config w).

(** The base route [baseRoute(path)] stores. *)
Definition stored_base (path : string) : string :=
  globalBaseRoute (config (world_after (baseRoute path empty_world))).

(** The bodies the wrapper passed to [res.json], and the errors it passed
    to [next]. *)
Definition json_calls (calls : list WrapperCall) : list JsValue :=
  flat_map (fun c => match c with CallResJson v => [v] | CallNext _ => [] end) calls.

Definition next_calls (calls : list WrapperCall) : list JsValue :=
  flat_map (fun c => match c with CallNext e => [e] | CallResJson _ => [] end) calls.

(** The names a [Codex] object answers itself: the properties the
    constructor and the field initialisers assign, the members of the class
    and those of [Object.prototype]. *)
Definition Codex_members : list string :=
  ["app"; "config"; "get"; "post"; "put"; "delete"; "patch"]
  ++ Codex_prototype ++ Object_prototype.




(** A class that extends the sample's [UserController]. *)
Definition SpecialController : Class :=
  {| cls_id := 9; cls_name := "SpecialController"; cls_parents := [1%positive] |}.

(** The container knows every provider of the module. *)
Definition providers_known (w : World) (M : Class) : bool :=
  forallb (fun P => Container_has P w) (module_providers M w).

(** A group that only lists the sample's [UserModule]. *)
Definition bare_group : RegistrationObject :=
  {| reg_route := None; reg_middlewares := None;
     reg_modules := ModulesArray [Sample.UserModule] |}.

(** A service class that carries no decorator, and a module that lists it
    as a provider. *)
Definition MailService : Class :=
  {| cls_id := 20; cls_name := "MailService"; cls_parents := [] |}.

Definition MailModule : Class :=
  {| cls_id := 21; cls_name := "MailModule"; cls_parents := [] |}.

Definition mail_world : World :=
  new_Codex (Module_ {| controllers := None; providers := Some [MailService] |}
               MailModule empty_world).


(** ** Vocabulary of the assertion statement *)

(** The classes a registration pass expects to be modules: the items that
    are classes and the members of the groups, in order. *)
Definition site_modules (registrations : list ModuleRegistration) : list Class :=
  flat_map (fun item =>
    match item with
    | ItemFunction M => [M]
    | ItemObject o =>
        match reg_modules o with
        | ModulesArray mods => mods
        | ModulesAbsent | ModulesNotArray => []
        end
    | ItemPrimitive _ => []
    end) registrations.

(** [e] is the error of an assertion on one of the modules [mods] or on a
    controller listed by one of them, and that class lacks the metadata. *)
Definition assertion_failed (mods : list Class) (w : World) (e : JsError) : Prop :=
  (exists M, M ∈ mods /\ isModule M w = false /\ e = module_error M)
  \/ (exists M C, M ∈ mods /\ isModule M w = true
                  /\ C ∈ module_controllers M w
                  /\ isController C w = false /\ e = controller_error C).

(** The error was made by [new Error(message)] itself, not by a subclass. *)
Definition is_plain_Error (e : JsError) : bool :=
  match e with
  | Error _ => true
  | TypeError _ | ServiceNotFoundError _ => false
  end.

(** The last character of a string. *)
Fixpoint string_last (s : string) : option ascii :=
  match s with
  | EmptyString => None
  | String c rest =>
      match string_last rest with
      | None => Some c
      | Some d => Some d
      end
  end.

(** ** More of the sample program *)

(** Functions of the sample Express application, told apart from the ones
    of [Sample.js_apply] by what they return: [set] returns the application
    itself (the object with reference 10) whatever [this] is, the others a
    new object; every call is logged with its [this]. *)
Definition express_apply (f : string) (this : JsValue) (args : list JsValue)
    (log : list (string * JsValue * list JsValue))
    : list (string * JsValue * list JsValue) * (JsValue + JsValue) :=
  (log ++ [(f, this, args)],
   inl (if bool_decide (f = "set") then VObject 10 else VObject 12)).








(** * Proofs *)

(** ** Strings *)

Lemma strip_empty_iff (s : string) :
  JsString.strip_trailing_slashes s = "" <-> JsString.only_slashes s = true.
Proof.
  induction s as [|c rest IH]; simpl; [done|].
  destruct (JsString.strip_trailing_slashes rest) eqn:E.
  - destruct (JsString.is_slash c); simpl.
    + split; [intros _; by apply IH | done].
    + split; [done | intros [=]].
  - split; [done|].
    rewrite andb_true_iff. intros [_ H]. apply IH in H. done.
Qed.

Lemma strip_no_trailing_slash (s : string) :
  JsString.endsWith_slash (JsString.strip_trailing_slashes s) = false.
Proof.
  induction s as [|c rest IH]; simpl; [done|].
  destruct (JsString.strip_trailing_slashes rest) eqn:E.
  - destruct (JsString.is_slash c) eqn:Ec; simpl; [done | by rewrite Ec].
  - simpl in *. done.
Qed.

Lemma strip_keeps_first (s : string) :
  JsString.strip_trailing_slashes s <> "" ->
  JsString.startsWith_slash (JsString.strip_trailing_slashes s)
  = JsString.startsWith_slash s.
Proof.
  destruct s as [|c rest]; simpl; [done|].
  destruct (JsString.strip_trailing_slashes rest); [|done].
  destruct (JsString.is_slash c) eqn:Ec; simpl; [done | by rewrite Ec].
Qed.

(** ** Computations *)

Section Respects.

Variable R : World -> World -> Prop.
Hypothesis R_refl : forall w, R w w.
Hypothesis R_trans : forall a b c, R a b -> R b c -> R a c.

Lemma respects_ret {A} (a : A) : respects R (Js_ret a).
Proof using R_refl. intros w. apply R_refl. Qed.

Lemma respects_throw {A} (e : JsError) : respects R (@Js_throw A e).
Proof using R_refl. intros w. apply R_refl. Qed.

Lemma respects_read {A} (f : World -> A) : respects R (Js_read f).
Proof using R_refl. intros w. apply R_refl. Qed.

Lemma respects_bind {A B} (c : Js A) (k : A -> Js B) :
  respects R c -> (forall a, respects R (k a)) -> respects R (Js_bind c k).
Proof using R_trans.
  intros Hc Hk w. unfold Js_bind, world_after.
  specialize (Hc w). unfold world_after in Hc.
  destruct (c w) as [w1 [a|e]]; simpl in *; [|done].
  eapply R_trans; [exact Hc | apply Hk].
Qed.

Lemma respects_forEach {A} (callback : A -> Js unit) (l : list A) :
  (forall x, respects R (callback x)) -> respects R (forEach callback l).
Proof using R_refl R_trans.
  intros H. induction l as [|x l IH]; simpl.
  - apply respects_ret.
  - apply respects_bind; [apply H | intros _; apply IH].
Qed.

Lemma respects_if {A} (b : bool) (c1 c2 : Js A) :
  respects R c1 -> respects R c2 -> respects R (if b then c1 else c2).
Proof. by destruct b. Qed.

End Respects.

Lemma respects_unchanged (R : World -> World -> Prop) {A} (c : Js A) :
  (forall w, R w w) -> (forall w, world_after (c w) = w) -> respects R c.
Proof. intros HR H w. rewrite H. apply HR. Qed.

Lemma respects_read_bind (R : World -> World -> Prop) {A B}
    (f : World -> A) (k : A -> Js B) :
  (forall w, R w (world_after (k (f w) w))) ->
  respects R (Js_bind (Js_read f) k).
Proof. intros H w. apply H. Qed.

(** ** Registration leaves metadata, arrays and configuration alone *)

Lemma registration_step_refl (w : World) : registration_step w w.
Proof. by repeat split. Qed.

Lemma registration_step_trans (a b c : World) :
  registration_step a b -> registration_step b c -> registration_step a c.
Proof.
  intros (H1 & H2 & H3 & H4 & H5) (G1 & G2 & G3 & G4 & G5).
  repeat split; try congruence; auto.
Qed.

Lemma assertController_world (C : Class) (w : World) :
  world_after (assertController C w) = w.
Proof. unfold assertController. by destruct (negb _). Qed.

Lemma assertModule_world (C : Class) (w : World) :
  world_after (assertModule C w) = w.
Proof. unfold assertModule. by destruct (negb _). Qed.

Lemma read_module_world (C : Class) (w : World) :
  world_after (read_module C w) = w.
Proof. unfold read_module. by destruct (Reflect_getMetadata _ _ _). Qed.

Lemma Container_get_step (C : Class) :
  respects registration_step (Container_get C).
Proof.
  intros w. unfold Container_get, world_after.
  destruct (container w !! cls_id C) as [[value|]|] eqn:E; simpl;
    try apply registration_step_refl.
  repeat split; simpl.
  - intros id Hid. destruct (decide (id = cls_id C)) as [->|Hne].
    + rewrite lookup_insert_eq. eauto.
    + by rewrite lookup_insert_ne.
  - intros id value Hid. destruct (decide (id = cls_id C)) as [->|Hne].
    + congruence.
    + by rewrite lookup_insert_ne.
Qed.

Lemma Container_set_new_step (C : Class) :
  respects registration_step
    (Js_bind (Js_read (Container_has C))
       (fun known => if negb known then Container_set_new C else Js_ret tt)).
Proof.
  apply respects_read_bind. intros w. unfold Container_has.
  destruct (container w !! cls_id C) as [entry|] eqn:E; simpl.
  { apply registration_step_refl. }
  repeat split; simpl.
  - intros id Hid. destruct (decide (id = cls_id C)) as [->|Hne].
    + rewrite lookup_insert_eq. eauto.
    + by rewrite lookup_insert_ne.
  - intros id value Hid. destruct (decide (id = cls_id C)) as [->|Hne].
    + congruence.
    + by rewrite lookup_insert_ne.
Qed.

Lemma registers_refl (w : World) : registers w w.
Proof.
  split; [apply registration_step_refl|].
  exists []. by rewrite app_nil_r.
Qed.

Lemma registers_trans (a b c : World) :
  registers a b -> registers b c -> registers a c.
Proof.
  intros [H1 (x & Hx & Qx)] [H2 (y & Hy & Qy)].
  split; [by eapply registration_step_trans|].
  exists (x ++ y). split.
  - by rewrite Hy, Hx, app_assoc.
  - apply Forall_app. split; [done|].
    destruct H1 as (_ & _ & Hc & _). by rewrite Hc in Qy.
Qed.

Lemma registers_quiet (w w' : World) :
  registration_step w w' -> app w' = app w -> registers w w'.
Proof.
  intros H Happ. split; [done|].
  exists []. by rewrite app_nil_r.
Qed.

Lemma Container_get_registers (C : Class) :
  respects registers (Container_get C).
Proof.
  intros w. apply registers_quiet; [apply Container_get_step|].
  unfold Container_get, world_after.
  by destruct (container w !! cls_id C) as [[value|]|].
Qed.

Lemma Container_set_new_registers (C : Class) :
  respects registers
    (Js_bind (Js_read (Container_has C))
       (fun known => if negb known then Container_set_new C else Js_ret tt)).
Proof.
  intros w. apply registers_quiet; [apply Container_set_new_step|].
  unfold Js_bind, Js_read, world_after; simpl.
  by destruct (negb (Container_has C w)).
Qed.

Lemma console_log_registers (line : string) :
  respects registers (console_log line).
Proof. intros w. apply registers_quiet; [by repeat split | done]. Qed.

Lemma mount_registers (rest : string) (router : Router) (line : string -> string) :
  respects registers
    (Js_bind (Js_read (fun w => globalBaseRoute (config w)))
       (fun base =>
          Js_bind (express "use" [ArgPath (base +:+ rest); ArgRouter router])
            (fun _ => console_log (line base)))).
Proof.
  intros w. split; [by repeat split|].
  eexists [_]. split; [reflexivity|].
  apply Forall_singleton. by exists rest, router.
Qed.

Create HintDb steps.

#[local] Hint Resolve Container_get_registers Container_set_new_registers
  console_log_registers mount_registers : steps.

Ltac step_through :=
  repeat first
    [ solve [auto with steps]
    | apply (respects_bind _ registers_trans)
    | apply (respects_forEach _ registers_refl registers_trans)
    | apply (respects_read _ registers_refl)
    | apply (respects_ret _ registers_refl)
    | apply (respects_throw _ registers_refl)
    | apply (respects_if _)
    | apply (respects_unchanged _ _ registers_refl); first
        [ apply assertController_world | apply assertModule_world
        | apply read_module_world ]
    | lazymatch goal with |- forall _, _ => intro end ].

Lemma registerGroupController_registers (routePrefix : string)
    (middlewares : list RequestHandler) (C : Class) :
  respects registers (registerGroupController routePrefix middlewares C).
Proof. unfold registerGroupController. step_through. Qed.

Lemma registerController_registers (C : Class) :
  respects registers (registerController C).
Proof. unfold registerController. step_through. Qed.

#[local] Hint Resolve registerGroupController_registers
  registerController_registers : steps.

Lemma registerItem_registers (item : ModuleRegistration) :
  respects registers (registerItem item).
Proof.
  destruct item as [C|o|v]; simpl.
  - unfold registerModuleClass, registerControllers. step_through.
  - destruct (reg_modules o); unfold registerGroupModule; step_through.
  - step_through.
Qed.

Lemma registerModules_registers (registrations : list ModuleRegistration) :
  respects registers (registerModules registrations).
Proof.
  apply (respects_forEach _ registers_refl registers_trans).
  apply registerItem_registers.
Qed.

(** ** The configuration across calls *)

Lemma registerModules_config (registrations : list ModuleRegistration) (w : World) :
  config (world_after (registerModules registrations w)) = config w.
Proof. by destruct (registerModules_registers registrations w) as [(_ & _ & H & _) _]. Qed.

Lemma enableJson_world (w : World) :
  enableJson w =
    (if jsonEnabled (config w) then w
     else set_console (console w ++ ["✓ JSON body parsing enabled"])
            (set_config (set_jsonEnabled true (config w))
               (set_app (app w ++ [{| call_name := "use";
                                      call_args := [ArgHandler JsonParser] |}]) w)),
     Normal tt).
Proof.
  unfold enableJson, Js_bind, Js_read. simpl.
  by destruct (jsonEnabled (config w)).
Qed.

Lemma enableUrlEncoded_world (options : option UrlEncodedOptions) (w : World) :
  enableUrlEncoded options w =
    (if urlEncodedEnabled (config w) then w
     else set_console (console w ++ ["✓ URL-encoded body parsing enabled"])
            (set_config (set_urlEncodedEnabled true (config w))
               (set_app (app w ++
                  [{| call_name := "use";
                      call_args := [ArgHandler (UrlEncodedParser
                                      (default {| extended := true |} options))] |}]) w)),
     Normal tt).
Proof.
  unfold enableUrlEncoded, Js_bind, Js_read. simpl.
  by destruct (urlEncodedEnabled (config w)).
Qed.

Lemma perform_config (resolve : string -> string) (c : CodexCall) (w : World) :
  let c' := config (world_after (perform resolve c w)) in
  (jsonEnabled (config w) = true -> jsonEnabled c' = true)
  /\ (urlEncodedEnabled (config w) = true -> urlEncodedEnabled c' = true)
  /\ ((forall p, c <> CallBaseRoute p) ->
      globalBaseRoute c' = globalBaseRoute (config w)).
Proof.
  destruct c; simpl.
  - done.
  - unfold baseRoute, Js_write, world_after; simpl.
    destruct (_ || _); simpl; repeat split; try done; intros H; by destruct (H path).
  - done.
  - unfold useBefore. by destruct (0 <? _).
  - done.
  - rewrite enableJson_world. by destruct (jsonEnabled (config w)) eqn:E.
  - rewrite enableUrlEncoded_world. by destruct (urlEncodedEnabled (config w)) eqn:E.
  - done.
  - by rewrite registerModules_config.
Qed.

Lemma perform_all_flags (resolve : string -> string) (calls : list CodexCall) (w : World) :
  flags_kept w (perform_all resolve calls w).
Proof.
  revert w. induction calls as [|c calls IH]; intros w; simpl; [done|].
  destruct (perform_config resolve c w) as (H1 & H2 & _).
  destruct (IH (world_after (perform resolve c w))) as [G1 G2].
  split; auto.
Qed.

Lemma perform_all_base (resolve : string -> string) (calls : list CodexCall) (w : World) :
  Forall (fun c => forall p, c <> CallBaseRoute p) calls ->
  globalBaseRoute (config (perform_all resolve calls w)) = globalBaseRoute (config w).
Proof.
  revert w. induction calls as [|c calls IH]; intros w Hc; simpl; [done|].
  apply Forall_cons in Hc as [Hc Hcs].
  rewrite IH by done.
  by apply (perform_config resolve c w).
Qed.

(** ** Claims *)

(** C8. [enableJson] and [enableUrlEncoded] are idempotent. On a world whose
    flag is off (as in a new [Codex]) the call makes exactly one
    [app.use(parser)] and turns the flag on; whatever calls the program makes
    afterwards, a further call changes nothing at all: neither the calls the
    Express application received nor the configuration. *)
Theorem enable_parsers_idempotent (resolve : string -> string) :
  (forall w, jsonEnabled (config w) = false ->
     let w1 := world_after (enableJson w) in
     app w1 = app w ++ [{| call_name := "use"; call_args := [ArgHandler JsonParser] |}]
     /\ config w1 = set_jsonEnabled true (config w))
  /\ (forall options w, urlEncodedEnabled (config w) = false ->
     let w1 := world_after (enableUrlEncoded options w) in
     app w1 = app w ++ [{| call_name := "use";
                           call_args := [ArgHandler (UrlEncodedParser
                              (default {| extended := true |} options))] |}]
     /\ config w1 = set_urlEncodedEnabled true (config w))
  /\ (forall env, jsonEnabled (config (new_Codex env)) = false
                  /\ urlEncodedEnabled (config (new_Codex env)) = false)
  /\ (forall w calls,
     let w2 := perform_all resolve calls (world_after (enableJson w)) in
     enableJson w2 = (w2, Normal tt))
  /\ (forall options options' w calls,
     let w2 := perform_all resolve calls (world_after (enableUrlEncoded options w)) in
     enableUrlEncoded options' w2 = (w2, Normal tt)).
Proof.
  repeat split.
  - rewrite enableJson_world, H. done.
  - rewrite enableJson_world, H. done.
  - rewrite enableUrlEncoded_world, H. done.
  - rewrite enableUrlEncoded_world, H. done.
  - intros w calls w2.
    assert (jsonEnabled (config w2) = true) as E.
    { apply (perform_all_flags resolve calls).
      rewrite enableJson_world. by destruct (jsonEnabled (config w)) eqn:E. }
    by rewrite enableJson_world, E.
  - intros options options' w calls w2.
    assert (urlEncodedEnabled (config w2) = true) as E.
    { apply (perform_all_flags resolve calls).
      rewrite enableUrlEncoded_world. by destruct (urlEncodedEnabled (config w)) eqn:E. }
    by rewrite enableUrlEncoded_world, E.
Qed.

(** C9 (as stated, refuted). [baseRoute('//')] stores the empty string
    although the argument is neither empty nor ['/']; the stored value does
    not start with ['/']. *)
Lemma baseRoute_only_slashes_counterexample :
  let path := "//" in
  let stored := globalBaseRoute (config (world_after (baseRoute path empty_world))) in
  path <> "" /\ path <> "/" /\ stored = ""
  /\ JsString.startsWith_slash stored = false.
Proof. by repeat split. Qed.

Lemma baseRoute_stored (path : string) (w : World) :
  globalBaseRoute (config (world_after (baseRoute path w))) =
    if bool_decide (path = "") || bool_decide (path = "/") then ""
    else JsString.strip_trailing_slashes
           (if JsString.startsWith_slash path then path else "/" +:+ path).
Proof.
  unfold baseRoute, Js_write, world_after; simpl.
  by destruct (_ || _).
Qed.

(** C9 (amended). After [baseRoute(path)] the stored global base route is
    empty exactly when [path] is empty or made of ['/'] characters only;
    otherwise it starts with ['/'] and does not end with ['/']. Until
    [baseRoute] is called again the stored value stays, every path mounted
    by a verb method is the stored value followed by the given path, and
    every router mounted by [registerModules] is mounted at a path that
    starts with the stored value. *)
Theorem baseRoute_normalizes_and_prefixes (resolve : string -> string)
    (path : string) (w : World) :
  let w1 := world_after (baseRoute path w) in
  let stored := globalBaseRoute (config w1) in
  (stored = "" <-> JsString.only_slashes path = true)
  /\ (stored <> "" ->
      JsString.startsWith_slash stored = true
      /\ JsString.endsWith_slash stored = false)
  /\ (forall calls, Forall (fun c => forall p, c <> CallBaseRoute p) calls ->
      let w2 := perform_all resolve calls w1 in
      globalBaseRoute (config w2) = stored
      /\ (forall method p handlers,
            app (world_after (createHttpMethod method p handlers w2)) =
            app w2 ++ [{| call_name := method_name method;
                          call_args := ArgPath (stored +:+ p) :: map ArgHandler handlers |}])
      /\ (forall registrations,
            app_grows (mounts_under stored) w2
              (world_after (registerModules registrations w2)))).
Proof.
  intros w1 stored. subst stored w1. rewrite baseRoute_stored.
  split; [|split].
  - destruct (bool_decide (path = "")) eqn:E1; simpl.
    { apply bool_decide_eq_true in E1 as ->. done. }
    destruct (bool_decide (path = "/")) eqn:E2; simpl.
    { apply bool_decide_eq_true in E2 as ->. done. }
    rewrite strip_empty_iff.
    destruct path as [|c rest]; [done|]. simpl.
    destruct (JsString.is_slash c) eqn:Ec; simpl; by rewrite Ec.
  - destruct (_ || _); [done|]. intros Hne.
    split; [|apply strip_no_trailing_slash].
    rewrite strip_keeps_first by done.
    by destruct (JsString.startsWith_slash path) eqn:Es.
  - intros calls Hcalls w2.
    assert (globalBaseRoute (config w2) = globalBaseRoute
              (config (world_after (baseRoute path w)))) as Hbase.
    { by apply perform_all_base. }
    rewrite baseRoute_stored in Hbase.
    split; [done|]. split.
    + intros method p handlers.
      unfold createHttpMethod, Js_bind, Js_read, world_after; simpl.
      by rewrite Hbase.
    + intros registrations. rewrite <- Hbase.
      apply registerModules_registers.
Qed.

(** ** What registration can throw *)

Lemma forEach_app {A} (f : A -> Js unit) (l1 l2 : list A) (w : World) :
  forEach f (l1 ++ l2) w =
    match forEach f l1 w with
    | (w1, Normal _) => forEach f l2 w1
    | (w1, Throw e) => (w1, Throw e)
    end.
Proof.
  revert w. induction l1 as [|x l1 IH]; intros w; simpl; [done|].
  unfold Js_bind. destruct (f x w) as [w1 [[]|e]]; [apply IH | done].
Qed.

Lemma forEach_throw {A} (f : A -> Js unit) (before after : list A) (x : A)
    (w w1 w2 : World) (e : JsError) :
  forEach f before w = (w1, Normal tt) ->
  f x w1 = (w2, Throw e) ->
  forEach f (before ++ x :: after) w = (w2, Throw e).
Proof.
  intros H1 H2. rewrite forEach_app, H1. simpl. unfold Js_bind. by rewrite H2.
Qed.

Lemma assertModule_result (C : Class) (w : World) :
  assertModule C w = (w, if isModule C w then Normal tt else Throw (module_error C)).
Proof. unfold assertModule. by destruct (isModule C w). Qed.

Lemma assertController_result (C : Class) (w : World) :
  assertController C w =
    (w, if isController C w then Normal tt else Throw (controller_error C)).
Proof. unfold assertController. by destruct (isController C w). Qed.

(** C10 (as stated, refuted). A number is neither a function nor an object
    with a [modules] array, and [registerModules] throws a [TypeError] on
    it: ['modules' in 42] cannot be evaluated. *)
Lemma registerModules_primitive_counterexample :
  completion_of (registerModules [ItemPrimitive (PNumber 42)] (new_Codex empty_world))
  = Throw (TypeError "Cannot use 'in' operator to search for 'modules'").
Proof. reflexivity. Qed.

(** C10 (amended). A registration item that is an object without a
    [modules] property, or whose [modules] is not an array, is skipped:
    nothing is thrown for it and the world (Express application, container,
    configuration, console) is unchanged, so the whole pass runs as if the
    item were not in the list. *)
Theorem registerModules_skips_other_objects
    (before after : list ModuleRegistration) (o : RegistrationObject) (w : World) :
  (forall mods, reg_modules o <> ModulesArray mods) ->
  registerItem (ItemObject o) w = (w, Normal tt)
  /\ registerModules (before ++ ItemObject o :: after) w
     = registerModules (before ++ after) w.
Proof.
  intros H.
  assert (forall w, registerItem (ItemObject o) w = (w, Normal tt)) as Hskip.
  { intros w0. simpl. destruct (reg_modules o) as [| |mods]; try done.
    by destruct (H mods). }
  split; [apply Hskip|].
  unfold registerModules. rewrite !forEach_app.
  destruct (forEach registerItem before w) as [w1 [[]|e]]; [|done].
  simpl. unfold Js_bind. by rewrite Hskip.
Qed.

(** ** Metadata written by the decorators *)

Lemma own_metadata {V} (key : Metadata -> gmap positive V) (C : Class)
    (w : World) (v : V) :
  key (reflect w) !! cls_id C = Some v -> Reflect_getMetadata key C w = Some v.
Proof. intros H. unfold Reflect_getMetadata. simpl. by rewrite H. Qed.

Lemma createRouteDecorator_routes (method : HttpMethod) (path : option string)
    (middlewares : option (list RequestHandler)) (C : Class)
    (propertyKey : PropertyKey) (w : World) :
  read_routes C (createRouteDecorator method path middlewares C propertyKey w) =
  read_routes C w ++
    [{| rm_method := method; rm_path := default "/" path;
        rm_handler := propertyKey; rm_middlewares := default [] middlewares |}].
Proof.
  unfold createRouteDecorator, read_routes at 2.
  destruct (Reflect_getMetadata codex_routes C w) as [ref|] eqn:E.
  - unfold read_routes.
    erewrite own_metadata by (simpl; apply lookup_insert_eq).
    unfold array_contents at 1. simpl. by rewrite lookup_insert_eq.
  - unfold new_array, read_routes.
    erewrite own_metadata by (simpl; apply lookup_insert_eq).
    unfold array_contents at 1. simpl. rewrite lookup_insert_eq. simpl.
    unfold array_contents. simpl. by rewrite lookup_insert_eq.
Qed.

(** C5. Applying a verb decorator ([Get], [Post], [Put], [Patch], [Delete])
    to a method of class [C] makes the class's ['codex:routes'] list the
    list it had before followed by exactly one descriptor: that verb, the
    path (['/'] when none is given), the property key and the middleware
    list (empty when none is given). Hence after several decorations the
    list holds the descriptors in the order the decorators were applied. *)
Theorem route_decorator_appends_descriptor :
  Forall (fun '(decorator, verb) =>
    forall (path : option string) (middlewares : option (list RequestHandler))
           (C : Class) (propertyKey : PropertyKey) (w : World),
      read_routes C (decorator path middlewares C propertyKey w) =
      read_routes C w ++
        [{| rm_method := verb; rm_path := default "/" path;
            rm_handler := propertyKey;
            rm_middlewares := default [] middlewares |}])
    [(Get, GET); (Post, POST); (Put, PUT); (Patch, PATCH); (Delete, DELETE)]
  /\ (forall (C : Class) (rs : list RouteMetadata) (w : World),
      read_routes C (decorate_all (map (route_decoration C) rs) w) =
      read_routes C w ++ rs).
Proof.
  split.
  - repeat (apply Forall_cons; split;
            [intros; apply createRouteDecorator_routes|]).
    by apply Forall_nil.
  - intros C rs. induction rs as [|r rs IH]; intros w; simpl.
    + by rewrite app_nil_r.
    + unfold decorate_all in IH. rewrite IH.
      rewrite createRouteDecorator_routes. simpl.
      rewrite <- app_assoc. by destruct r.
Qed.

Lemma decorate_own (C : Class) (d : Decoration) (w : World) :
  redecorates C d = false ->
  codex_controller (reflect (decorate d w)) !! cls_id C
    = codex_controller (reflect w) !! cls_id C
  /\ codex_middlewares (reflect (decorate d w)) !! cls_id C
    = codex_middlewares (reflect w) !! cls_id C
  /\ codex_module (reflect (decorate d w)) !! cls_id C
    = codex_module (reflect w) !! cls_id C.
Proof.
  destruct d; simpl; intros H; try apply bool_decide_eq_false in H.
  - repeat split; try done; by rewrite lookup_insert_ne.
  - repeat split; try done; by rewrite lookup_insert_ne.
  - done.
  - done.
  - unfold createRouteDecorator.
    by destruct (Reflect_getMetadata codex_routes C0 w).
Qed.

Lemma decorate_all_own (C : Class) (ds : list Decoration) (w : World) :
  Forall (fun d => redecorates C d = false) ds ->
  codex_controller (reflect (decorate_all ds w)) !! cls_id C
    = codex_controller (reflect w) !! cls_id C
  /\ codex_middlewares (reflect (decorate_all ds w)) !! cls_id C
    = codex_middlewares (reflect w) !! cls_id C
  /\ codex_module (reflect (decorate_all ds w)) !! cls_id C
    = codex_module (reflect w) !! cls_id C.
Proof.
  revert w. induction ds as [|d ds IH]; intros w H; [done|].
  apply Forall_cons in H as [Hd Hds]. simpl.
  destruct (IH (decorate d w) Hds) as (-> & -> & ->).
  by apply decorate_own.
Qed.

Lemma perform_reflect (resolve : string -> string) (c : CodexCall) (w : World) :
  reflect (world_after (perform resolve c w)) = reflect w.
Proof.
  destruct c; simpl; try done.
  - unfold baseRoute, Js_write, world_after; simpl. by destruct (_ || _).
  - unfold useBefore. by destruct (0 <? _).
  - rewrite enableJson_world. by destruct (jsonEnabled (config w)).
  - rewrite enableUrlEncoded_world. by destruct (urlEncodedEnabled (config w)).
  - by destruct (registerModules_registers registrations w) as [(H & _) _].
Qed.

Lemma perform_all_reflect (resolve : string -> string) (calls : list CodexCall)
    (w : World) :
  reflect (perform_all resolve calls w) = reflect w.
Proof.
  revert w. induction calls as [|c calls IH]; intros w; simpl; [done|].
  by rewrite IH, perform_reflect.
Qed.

(** C6. What [@Controller(basePath, middlewares)] and [@Module(metadata)]
    attach to a class is what the registration pass reads back under
    ['codex:controller'], ['codex:middlewares'] and ['codex:module']:
    whatever decorators run afterwards (none of them decorating the same
    class with [@Controller] or [@Module] again) and whatever calls are
    made on the [Codex] object created then. *)
Theorem decorator_metadata_round_trip (resolve : string -> string) (C : Class)
    (later : list Decoration) (calls : list CodexCall) :
  Forall (fun d => redecorates C d = false) later ->
  (forall basePath middlewares w,
     let w' := perform_all resolve calls
                 (new_Codex (decorate_all later (Controller basePath middlewares C w))) in
     read_basePath C w' = default "" basePath
     /\ read_middlewares C w' = default [] middlewares)
  /\ (forall metadata w,
     let w' := perform_all resolve calls
                 (new_Codex (decorate_all later (Module_ metadata C w))) in
     read_module C w' = (w', Normal metadata)).
Proof.
  intros Hlater. split.
  - intros basePath middlewares w w'.
    destruct (decorate_all_own C later (Controller basePath middlewares C w) Hlater)
      as (H1 & H2 & _).
    unfold read_basePath, read_middlewares.
    rewrite (own_metadata codex_controller C w' (default "" basePath)).
    2:{ subst w'. rewrite perform_all_reflect. simpl in *. rewrite H1.
        apply lookup_insert_eq. }
    rewrite (own_metadata codex_middlewares C w' (default [] middlewares)); [done|].
    subst w'. rewrite perform_all_reflect. simpl in *. rewrite H2.
    apply lookup_insert_eq.
  - intros metadata w w'.
    destruct (decorate_all_own C later (Module_ metadata C w) Hlater)
      as (_ & _ & H3).
    unfold read_module.
    rewrite (own_metadata codex_module C w' metadata); [done|].
    subst w'. rewrite perform_all_reflect. simpl in *. rewrite H3.
    apply lookup_insert_eq.
Qed.

(** ** The wrapped handler *)

(** C1 (as stated, refuted). The method [create] answers by hand and then
    returns 7: the value it returns is not passed to [res.json], the
    wrapper makes no call at all. *)
Lemma returned_value_not_serialized_counterexample :
  let inv := Sample.sends_then_returns Sample.request Sample.response in
  let run := handle_request Sample.methods Sample.res_json
               Sample.controller_instance (KString "create")
               Sample.request Sample.response in
  inv_outcome inv = Returns (Plain (VNumber 7))
  /\ wrapper_calls run = []
  /\ final_response run = inv_response inv.
Proof. by repeat split. Qed.

(** C1 (amended). When the method returns a value, or a promise fulfilled
    with a value, that is not [undefined], and the headers have not been
    sent when the wrapper resumes, the wrapper passes exactly that value to
    [res.json] (and hands to [next] what [res.json] throws, if it throws);
    when the value is [undefined] or the headers have been sent, the
    wrapper calls nothing and leaves the response as the method left it. *)
Theorem wrapped_handler_serializes_result
    (methods : Instance -> PropertyKey -> option Method)
    (res_json : JsValue -> Response -> Response * option JsValue)
    (instance : Instance) (handlerKey : PropertyKey)
    (req : Request) (res : Response)
    (method : Method) (r : Returned) (result : JsValue) :
  methods instance handlerKey = Some method ->
  inv_outcome (method req res) = Returns r ->
  await r = AwaitValue result ->
  let res1 := inv_response (method req res) in
  let run := handle_request methods res_json instance handlerKey req res in
  if negb (strict_equal result VUndefined) && negb (headersSent res1) then
    final_response run = fst (res_json result res1)
    /\ wrapper_calls run =
         CallResJson result ::
         match snd (res_json result res1) with
         | None => []
         | Some error => [CallNext error]
         end
  else
    final_response run = res1 /\ wrapper_calls run = [].
Proof.
  intros Hm Ho Ha res1 run. subst run res1. unfold handle_request.
  rewrite Hm, Ho, Ha.
  destruct (negb (strict_equal result VUndefined) && negb _); [|done].
  by destruct (res_json result (inv_response (method req res))) as [res' [error|]].
Qed.

Lemma wrapped_handler_serializes_result_witness :
  let run := handle_request Sample.methods Sample.res_json
               Sample.controller_instance (KString "list")
               Sample.request Sample.response in
  final_response run = {| headersSent := true; written := [VNumber 7] |}
  /\ wrapper_calls run = [CallResJson (VNumber 7)].
Proof.
  exact (wrapped_handler_serializes_result Sample.methods Sample.res_json
           Sample.controller_instance (KString "list") Sample.request
           Sample.response Sample.returns_seven (Plain (VNumber 7)) (VNumber 7)
           eq_refl eq_refl eq_refl).
Defined.

(** C2. When the method throws, or returns a promise that rejects, the
    wrapper calls [next] with that very error and nothing else: it does not
    call [res.json], and the response is as the method left it. *)
Theorem wrapped_handler_forwards_error
    (methods : Instance -> PropertyKey -> option Method)
    (res_json : JsValue -> Response -> Response * option JsValue)
    (instance : Instance) (handlerKey : PropertyKey)
    (req : Request) (res : Response) (method : Method) (error : JsValue) :
  methods instance handlerKey = Some method ->
  inv_outcome (method req res) = Throws error
  \/ inv_outcome (method req res) = Returns (Promise (Rejected error)) ->
  handle_request methods res_json instance handlerKey req res =
    {| final_response := inv_response (method req res);
       wrapper_calls := [CallNext error] |}.
Proof.
  intros Hm [Ho|Ho]; unfold handle_request; by rewrite Hm, Ho.
Qed.

Lemma wrapped_handler_forwards_error_witness :
  handle_request Sample.methods Sample.res_json Sample.controller_instance
    (KString "remove") Sample.request Sample.response =
  {| final_response := Sample.response;
     wrapper_calls := [CallNext (VError "gone")] |}.
Proof.
  apply (wrapped_handler_forwards_error Sample.methods Sample.res_json
           Sample.controller_instance (KString "remove") Sample.request
           Sample.response Sample.rejects (VError "gone")).
  - reflexivity.
  - right. reflexivity.
Defined.

(** ** The proxy *)

Lemma blocked_on_prototype (prop : PropertyKey) :
  blocked_includes prop = true -> on_prototypes prop = true.
Proof.
  destruct prop as [name|n]; simpl; [|done].
  intros H. apply bool_decide_eq_true in H.
  unfold blocked in H. rewrite !elem_of_cons in H.
  destruct H as [->|[->|[->|[->|H]]]]; try done.
  by apply elem_of_nil in H.
Qed.

(** C7. Reading, through the proxy, a property the [Codex] object does not
    have gives what the Express application has under that name: a value
    that is not a function as it is, a function as an arrow function.
    Called, the arrow function applies that function to the arguments with
    the Express application (the object [target.app], which the constructor
    stored under the own property [app]) as [this]; it returns what the
    function returns, except that it returns the receiver (the proxy) when
    the function returns the Express application itself; what the function
    throws, it throws. *)
Theorem proxy_forwards_to_express {S : Type}
    (js_apply : string -> JsValue -> list JsValue -> S -> S * (JsValue + JsValue))
    (target : CodexObject) (prop : PropertyKey) (receiver : JsValue) :
  has_property target prop = false ->
  let express_app := VObject (app_ref (codex_app target)) in
  proxyHandler js_apply target prop receiver =
    match app_props (codex_app target) prop with
    | VFunction f => GotArrow (arrow js_apply f target receiver)
    | v => GotValue v
    end
  /\ (forall f args s s' result,
        js_apply f express_app args s = (s', inl result) ->
        arrow js_apply f target receiver args s =
          (s', inl (if decide (result = express_app) then receiver else result)))
  /\ (forall f args s s' error,
        js_apply f express_app args s = (s', inr error) ->
        arrow js_apply f target receiver args s = (s', inr error))
  /\ (forall app config_ref,
        codex_app (Codex_constructor app config_ref) = app
        /\ own_props (Codex_constructor app config_ref) !! KString "app"
           = Some (VObject (app_ref app))).
Proof.
  intros H express_app. split; [|split; [|split]].
  - unfold proxyHandler. rewrite H.
    destruct (blocked_includes prop) eqn:B.
    + apply blocked_on_prototype in B. unfold has_property in H.
      destruct (own_props target !! prop); congruence.
    + by destruct (app_props (codex_app target) prop).
  - intros f args s s' result E. unfold arrow, the_app. fold express_app.
    rewrite E. unfold strict_equal.
    by destruct (decide (result = express_app));
      [rewrite bool_decide_eq_true_2 | rewrite bool_decide_eq_false_2].
  - intros f args s s' error E. unfold arrow, the_app. fold express_app.
    by rewrite E.
  - intros app config_ref. split; [done|]. vm_compute. reflexivity.
Qed.

Lemma proxy_forwards_to_express_witness :
  has_property Sample.codex_object (KString "set") = false
  /\ proxyHandler express_apply Sample.codex_object (KString "set") Sample.proxy
     = GotArrow (arrow express_apply "set" Sample.codex_object Sample.proxy)
  /\ arrow express_apply "set" Sample.codex_object Sample.proxy
       [VString "etag"; VBoolean false] []
     = ([("set", VObject 10, [VString "etag"; VBoolean false])], inl Sample.proxy)
  /\ arrow express_apply "listen" Sample.codex_object Sample.proxy
       [VNumber 3000] []
     = ([("listen", VObject 10, [VNumber 3000])], inl (VObject 12)).
Proof.
  assert (has_property Sample.codex_object (KString "set") = false) as H
    by (vm_compute; reflexivity).
  destruct (proxy_forwards_to_express express_apply Sample.codex_object
              (KString "set") Sample.proxy H) as (H1 & H2 & _).
  split; [exact H|]. split; [exact H1|]. split.
  - exact (H2 "set" [VString "etag"; VBoolean false] [] _ _ eq_refl).
  - exact (H2 "listen" [VNumber 3000] [] _ _ eq_refl).
Defined.

(** ** Mounting *)

Lemma reads_after_step (w w' : World) (C : Class) :
  registration_step w w' ->
  read_basePath C w' = read_basePath C w
  /\ read_middlewares C w' = read_middlewares C w
  /\ read_routes C w' = read_routes C w
  /\ module_controllers C w' = module_controllers C w
  /\ module_providers C w' = module_providers C w
  /\ isController C w' = isController C w
  /\ isModule C w' = isModule C w.
Proof.
  intros (Hr & Ha & _).
  unfold read_basePath, read_middlewares, read_routes, module_controllers,
    module_providers, isController, isModule, Reflect_hasMetadata,
    Reflect_getMetadata, array_contents.
  by rewrite Hr, Ha.
Qed.

Lemma Container_has_after_step (w w' : World) (C : Class) :
  registration_step w w' -> Container_has C w = true -> Container_has C w' = true.
Proof.
  intros (_ & _ & _ & Hk & _). unfold Container_has.
  specialize (Hk (cls_id C)).
  destruct (container w !! cls_id C) eqn:E; [|done]. intros _.
  destruct Hk as [entry ->]; eauto.
Qed.

Lemma controller_ready_after_step (w w' : World) (C : Class) :
  registration_step w w' ->
  controller_ready w C = true -> controller_ready w' C = true.
Proof.
  intros Hs. unfold controller_ready. rewrite !andb_true_iff.
  intros [H1 H2]. split.
  - destruct (reads_after_step w w' C Hs) as (_ & _ & _ & _ & _ & -> & _). done.
  - by eapply Container_has_after_step.
Qed.

Lemma forallb_after_step {A} (p : World -> A -> bool) (w w' : World) (l : list A) :
  (forall x, p w x = true -> p w' x = true) ->
  forallb (p w) l = true -> forallb (p w') l = true.
Proof.
  intros H. rewrite !forallb_forall. intros Hl x Hx. apply H, Hl, Hx.
Qed.

Lemma module_ready_after_step (grouped : bool) (w w' : World) (M : Class) :
  registration_step w w' ->
  module_ready grouped w M = true -> module_ready grouped w' M = true.
Proof.
  intros Hs. unfold module_ready. rewrite !andb_true_iff, !orb_true_iff.
  destruct (reads_after_step w w' M Hs) as (_ & _ & _ & -> & -> & _ & ->).
  intros [[H1 H2] H3]. repeat split; [done| |].
  - revert H2. apply forallb_after_step.
    intros C. by apply controller_ready_after_step.
  - destruct H3 as [H3|H3]; [by left | right].
    revert H3. apply (forallb_after_step (fun w P => Container_has P w)).
    intros C. by apply Container_has_after_step.
Qed.

Lemma mounted_after_step (w w1 w2 : World) (m : Mount) (call : AppCall) :
  registration_step w1 w2 -> mounted w w1 m call -> mounted w w2 m call.
Proof.
  intros (_ & _ & _ & _ & Hv) (instance & Hi & Hc).
  exists instance. split; [by apply Hv | done].
Qed.

Lemma mounted_before_step (w w1 w2 : World) (m : Mount) (call : AppCall) :
  registration_step w w1 -> mounted w1 w2 m call -> mounted w w2 m call.
Proof.
  intros Hs (instance & Hi & Hc). exists instance. split; [done|].
  destruct (reads_after_step w w1 (mount_class m) Hs) as (E1 & E2 & E3 & _).
  destruct Hs as (_ & _ & Hcfg & _).
  unfold expected_router in *. by rewrite <- E1, <- E2, <- E3, <- Hcfg.
Qed.

Lemma mounts_ok_seq (ms1 ms2 : list Mount) (c1 c2 : Js unit) (w : World) :
  mounts_ok ms1 c1 w ->
  (forall w1, registration_step w w1 -> mounts_ok ms2 c2 w1) ->
  mounts_ok (ms1 ++ ms2) (Js_bind c1 (fun _ => c2)) w.
Proof.
  intros (w1 & calls1 & E1 & S1 & A1 & M1) H2.
  destruct (H2 w1 S1) as (w2 & calls2 & E2 & S2 & A2 & M2).
  exists w2, (calls1 ++ calls2). unfold Js_bind. rewrite E1.
  split; [done|]. split; [by eapply registration_step_trans|].
  split; [by rewrite A2, A1, app_assoc|].
  apply Forall2_app.
  - eapply Forall2_impl; [exact M1|]. intros m c. by apply mounted_after_step.
  - eapply Forall2_impl; [exact M2|]. intros m c. by apply mounted_before_step.
Qed.

Lemma mounts_ok_quiet (c : Js unit) (w w' : World) :
  c w = (w', Normal tt) -> registration_step w w' -> app w' = app w ->
  mounts_ok [] c w.
Proof.
  intros E Hs Ha. exists w', []. rewrite app_nil_r.
  split; [done|]. split; [done|]. split; [done|]. constructor.
Qed.

Lemma mounts_ok_ext (ms : list Mount) (c c' : Js unit) (w : World) :
  c w = c' w -> mounts_ok ms c' w -> mounts_ok ms c w.
Proof. unfold mounts_ok. by intros ->. Qed.

Lemma mounts_ok_quiet_run (c : Js unit) (w : World) :
  completion_of (c w) = Normal tt ->
  registration_step w (world_after (c w)) ->
  app (world_after (c w)) = app w ->
  mounts_ok [] c w.
Proof.
  destruct (c w) as [w' r] eqn:E. simpl. intros ->. by apply mounts_ok_quiet.
Qed.

Lemma mounts_ok_forEach {A} (ready : World -> A -> bool) (mk : World -> A -> list Mount)
    (callback : A -> Js unit) :
  (forall w w' x, registration_step w w' -> ready w x = true -> ready w' x = true) ->
  (forall w w' x, registration_step w w' -> mk w' x = mk w x) ->
  (forall w x, ready w x = true -> mounts_ok (mk w x) (callback x) w) ->
  forall l w, forallb (ready w) l = true ->
    mounts_ok (flat_map (mk w) l) (forEach callback l) w.
Proof.
  intros Hready Hmk Hcb l. induction l as [|x l IH]; intros w Hl; simpl.
  - by eapply mounts_ok_quiet.
  - simpl in Hl. apply andb_true_iff in Hl as [Hx Hl].
    apply mounts_ok_seq; [by apply Hcb|].
    intros w1 Hs.
    replace (flat_map (mk w) l) with (flat_map (mk w1) l).
    + apply IH. revert Hl. apply forallb_after_step. intros y. by apply Hready.
    + clear -Hmk Hs. induction l as [|y l IHl]; simpl; [done|].
      by rewrite IHl, (Hmk w w1 y Hs).
Qed.

Lemma fold_router_routes (instance : Instance) (routes : list RouteMetadata)
    (router : Router) :
  router_routes instance routes router =
  router ++ map (fun r => RouterVerb (method_name (rm_method r)) (rm_path r)
                   (rm_middlewares r ++ [WrappedHandler instance (rm_handler r)]))
                routes.
Proof.
  unfold router_routes. revert router.
  induction routes as [|r routes IH]; intros router; simpl.
  - by rewrite app_nil_r.
  - rewrite IH. by rewrite <- app_assoc.
Qed.

Lemma router_use_nil (ms : list RequestHandler) (router : Router) :
  router_use ms router = router ++ use_if_any ms.
Proof. destruct ms; simpl; [by rewrite app_nil_r | done]. Qed.

Lemma built_router (w : World) (m : Mount) (instance : Instance) :
  router_routes instance (read_routes (mount_class m) w)
    (router_use (read_middlewares (mount_class m) w)
       (router_use (mount_middlewares m) []))
  = expected_router w m instance.
Proof.
  unfold expected_router.
  rewrite fold_router_routes, !router_use_nil. simpl.
  by rewrite <- app_assoc.
Qed.

Lemma registerGroupController_mounts (routePrefix : string)
    (middlewares : list RequestHandler) (C : Class) (w : World) :
  controller_ready w C = true ->
  mounts_ok [{| mount_prefix := routePrefix; mount_middlewares := middlewares;
                mount_class := C |}]
            (registerGroupController routePrefix middlewares C) w.
Proof.
  unfold controller_ready. rewrite andb_true_iff. intros [Hc Hk].
  unfold mounts_ok, registerGroupController, Js_bind, Js_read.
  rewrite assertController_result, Hc.
  unfold Container_has in Hk. unfold Container_get.
  destruct (container w !! cls_id C) as [[value|]|] eqn:E; [| |done]; simpl.
  - do 2 eexists. split; [reflexivity|].
    split. { by repeat split. }
    split; [reflexivity|].
    constructor; [|constructor]. exists value. split; [done|].
    by rewrite <- built_router.
  - do 2 eexists. split; [reflexivity|].
    split.
    { repeat split; simpl; try done.
      - intros id Hid. destruct (decide (id = cls_id C)) as [->|Hne].
        + rewrite lookup_insert_eq. eauto.
        + by rewrite lookup_insert_ne.
      - intros id value Hid. destruct (decide (id = cls_id C)) as [->|Hne].
        + congruence.
        + by rewrite lookup_insert_ne. }
    split; [reflexivity|].
    constructor; [|constructor].
    exists (new_instance C w). split; [simpl; apply lookup_insert_eq|].
    by rewrite <- built_router.
Qed.

Lemma registerController_as_group (C : Class) (w : World) :
  registerController C w =
  registerGroupController "" (globalMiddlewares (config w)) C w.
Proof.
  unfold registerController, registerGroupController, Js_bind, Js_read.
  destruct (assertController C w) as [w1 [[]|e]] eqn:E; [|done].
  assert (w1 = w) as -> by (by rewrite <- (assertController_world C w), E).
  destruct (Container_get C w) as [w2 [instance|e]] eqn:G; [|done].
  assert (config w2 = config w) as Hcfg.
  { by destruct (Container_get_step C w) as (_ & _ & H & _);
      unfold world_after in H; rewrite G in H. }
  by rewrite Hcfg.
Qed.

Lemma registerController_mounts (C : Class) (w : World) :
  controller_ready w C = true ->
  mounts_ok [{| mount_prefix := ""; mount_middlewares := globalMiddlewares (config w);
                mount_class := C |}]
            (registerController C) w.
Proof.
  intros H.
  destruct (registerGroupController_mounts "" (globalMiddlewares (config w)) C w H)
    as (w' & calls & E & rest).
  exists w', calls. by rewrite registerController_as_group.
Qed.

Lemma direct_providers_quiet (ps : list Class) (w : World) :
  mounts_ok []
    (forEach (fun provider =>
       Js_bind (Js_read (Container_has provider))
         (fun known => if negb known then Container_set_new provider
                       else Js_ret tt)) ps) w.
Proof.
  revert w. induction ps as [|P ps IH]; intros w; simpl.
  - by eapply mounts_ok_quiet.
  - apply (mounts_ok_seq [] []); [|intros w1 _; apply IH].
    apply mounts_ok_quiet_run.
    + unfold Js_bind, Js_read. by destruct (negb (Container_has P w)).
    + apply (Container_set_new_step P w).
    + unfold Js_bind, Js_read. by destruct (negb (Container_has P w)).
Qed.

Lemma known_provider_skipped (P : Class) (c : Js unit) (w : World) :
  Container_has P w = true ->
  Js_bind (Js_read (Container_has P))
    (fun known => if negb known then c else Js_ret tt) w = (w, Normal tt).
Proof. intros H. unfold Js_bind, Js_read. by rewrite H. Qed.

Lemma group_providers_quiet (ps : list Class) (w : World) :
  forallb (fun P => Container_has P w) ps = true ->
  forEach (fun provider =>
     Js_bind (Js_read (Container_has provider))
       (fun known => if negb known
                     then Js_bind (Container_get provider) (fun _ => Js_ret tt)
                     else Js_ret tt)) ps w
  = (w, Normal tt).
Proof.
  induction ps as [|P ps IH]; simpl; [done|].
  rewrite andb_true_iff. intros [HP Hps].
  unfold Js_bind at 1. rewrite known_provider_skipped by done. by apply IH.
Qed.

Lemma mounts_ok_console (line : string) (w : World) :
  mounts_ok [] (console_log line) w.
Proof. eapply mounts_ok_quiet; [reflexivity | by repeat split | done]. Qed.

Lemma mounts_ok_controllers (cs : list Class) (callback : Class -> Js unit)
    (mk : World -> Class -> Mount) (w : World) :
  (forall w w' C, registration_step w w' -> mk w' C = mk w C) ->
  (forall w C, controller_ready w C = true -> mounts_ok [mk w C] (callback C) w) ->
  forallb (controller_ready w) cs = true ->
  mounts_ok (map (mk w) cs) (forEach callback cs) w.
Proof.
  intros Hmk Hcb Hcs.
  replace (map (mk w) cs) with (flat_map ((fun w C => [mk w C]) w) cs).
  - apply (mounts_ok_forEach controller_ready (fun w C => [mk w C])); try done.
    + intros w0 w1 C. apply controller_ready_after_step.
    + intros w0 w1 C Hs. by rewrite (Hmk w0 w1 C Hs).
  - clear. induction cs as [|C cs IH]; simpl; [done | by rewrite IH].
Qed.

Lemma isModule_metadata (M : Class) (w : World) :
  isModule M w = true ->
  exists m, Reflect_getMetadata codex_module M w = Some m.
Proof.
  unfold isModule, Reflect_hasMetadata.
  destruct (Reflect_getMetadata codex_module M w) as [m|]; [eauto | done].
Qed.

Lemma if_length_forEach {A} (callback : A -> Js unit) (l : list A) :
  (if 0 <? length l then forEach callback l else Js_ret tt) = forEach callback l.
Proof. by destruct l. Qed.

Lemma registerModuleClass_mounts (M : Class) (w : World) :
  module_ready false w M = true ->
  mounts_ok (item_mounts w (ItemFunction M)) (registerModuleClass M) w.
Proof.
  unfold module_ready. rewrite !andb_true_iff. intros [[HM Hcs] _].
  destruct (isModule_metadata M w HM) as [m Hm].
  unfold item_mounts, module_controllers in *. rewrite Hm in *.
  apply (mounts_ok_ext _ _
    (Js_bind (forEach (fun provider =>
               Js_bind (Js_read (Container_has provider))
                 (fun known => if negb known then Container_set_new provider
                               else Js_ret tt)) (default [] (providers m)))
      (fun _ => Js_bind (forEach registerController (default [] (controllers m)))
         (fun _ => console_log ("✓ Loaded module: " +:+ cls_name M))))).
  { unfold registerModuleClass, Js_bind at 1 2.
    rewrite assertModule_result, HM. unfold read_module. rewrite Hm.
    unfold registerControllers. by rewrite if_length_forEach. }
  rewrite <- (app_nil_r (map _ _)).
  apply (mounts_ok_seq [] (_ ++ [])); [apply direct_providers_quiet|].
  intros w1 Hs1.
  apply mounts_ok_seq; [|intros; apply mounts_ok_console].
  assert (config w1 = config w) as R3 by apply Hs1.
  rewrite <- R3.
  apply (mounts_ok_controllers _ registerController
           (fun w C => {| mount_prefix := "";
                          mount_middlewares := globalMiddlewares (config w);
                          mount_class := C |})).
  - intros w2 w3 C (_ & _ & -> & _). done.
  - intros w2 C. apply registerController_mounts.
  - revert Hcs. apply forallb_after_step. intros C.
    by apply controller_ready_after_step.
Qed.

Lemma registerGroupModule_mounts (routePrefix : string)
    (middlewares : list RequestHandler) (M : Class) (w : World) :
  module_ready true w M = true ->
  mounts_ok (map (fun C => {| mount_prefix := routePrefix;
                              mount_middlewares := middlewares;
                              mount_class := C |}) (module_controllers M w))
            (registerGroupModule routePrefix middlewares M) w.
Proof.
  unfold module_ready. rewrite !andb_true_iff. simpl. intros [[HM Hcs] Hps].
  destruct (isModule_metadata M w HM) as [m Hm].
  unfold module_controllers, module_providers in *. rewrite Hm in *.
  apply (mounts_ok_ext _ _
    (Js_bind (forEach (registerGroupController routePrefix middlewares)
               (default [] (controllers m)))
      (fun _ => console_log ("✓ Loaded module: " +:+ cls_name M)))).
  { unfold registerGroupModule, Js_bind at 1 2 3.
    rewrite assertModule_result, HM. unfold read_module. rewrite Hm.
    rewrite group_providers_quiet by done.
    by rewrite if_length_forEach. }
  rewrite <- (app_nil_r (map _ _)).
  apply mounts_ok_seq; [|intros; apply mounts_ok_console].
  apply (mounts_ok_controllers _ _
           (fun _ C => {| mount_prefix := routePrefix;
                          mount_middlewares := middlewares;
                          mount_class := C |})); try done.
  intros w2 C. apply registerGroupController_mounts.
Qed.

Lemma item_mounts_after_step (w w' : World) (item : ModuleRegistration) :
  registration_step w w' -> item_mounts w' item = item_mounts w item.
Proof.
  intros Hs. destruct item as [M|o|v]; simpl; [| |done].
  - destruct (reads_after_step w w' M Hs) as (_ & _ & _ & -> & _).
    destruct Hs as (_ & _ & -> & _). done.
  - destruct (reg_modules o) as [| |mods]; try done.
    induction mods as [|M mods IH]; simpl; [done|].
    destruct (reads_after_step w w' M Hs) as (_ & _ & _ & -> & _).
    by rewrite IH.
Qed.

Lemma item_ready_after_step (w w' : World) (item : ModuleRegistration) :
  registration_step w w' -> item_ready w item = true -> item_ready w' item = true.
Proof.
  intros Hs. destruct item as [M|o|v]; simpl; [| |done].
  - by apply module_ready_after_step.
  - destruct (reg_modules o) as [| |mods]; try done.
    apply forallb_after_step. intros M. by apply module_ready_after_step.
Qed.

Lemma registerItem_mounts (item : ModuleRegistration) (w : World) :
  item_ready w item = true ->
  mounts_ok (item_mounts w item) (registerItem item) w.
Proof.
  destruct item as [M|o|v]; simpl; [| |done].
  - apply registerModuleClass_mounts.
  - destruct (reg_modules o) as [| |mods];
      try (intros _; by eapply mounts_ok_quiet).
    apply (mounts_ok_forEach (module_ready true)
             (fun w M => map _ (module_controllers M w))).
    + intros w0 w1 M. apply module_ready_after_step.
    + intros w0 w1 M Hs.
      by destruct (reads_after_step w0 w1 M Hs) as (_ & _ & _ & -> & _).
    + intros w0 M. apply registerGroupModule_mounts.
Qed.





Lemma decorator_metadata_round_trip_witness :
  Forall (fun d => redecorates Sample.UserController d = false)
         Sample.later_decorations
  /\ (let w' := perform_all Sample.resolve
                  [CallEnableJson; CallRegisterModules Sample.registrations]
                  (new_Codex (decorate_all Sample.later_decorations
                     (Controller (Some "/users") (Some [Sample.validate])
                        Sample.UserController empty_world))) in
      read_basePath Sample.UserController w' = "/users"
      /\ read_middlewares Sample.UserController w' = [Sample.validate]).
Proof.
  assert (Forall (fun d => redecorates Sample.UserController d = false)
            Sample.later_decorations) as H
    by (repeat constructor).
  split; [exact H|].
  apply (decorator_metadata_round_trip Sample.resolve Sample.UserController
           Sample.later_decorations
           [CallEnableJson; CallRegisterModules Sample.registrations] H).
Defined.

Lemma registerModules_skips_other_objects_witness :
  (forall mods, reg_modules Sample.no_modules <> ModulesArray mods)
  /\ registerItem (ItemObject Sample.no_modules) Sample.codex
      = (Sample.codex, Normal tt)
  /\ registerModules ([ItemFunction Sample.UserModule]
                        ++ ItemObject Sample.no_modules
                        :: [ItemFunction Sample.AdminModule]) Sample.codex
      = registerModules ([ItemFunction Sample.UserModule]
                        ++ [ItemFunction Sample.AdminModule]) Sample.codex.
Proof.
  assert (forall mods, reg_modules Sample.no_modules <> ModulesArray mods) as H
    by (intros mods; simpl; discriminate).
  split; [exact H|].
  exact (registerModules_skips_other_objects [ItemFunction Sample.UserModule]
           [ItemFunction Sample.AdminModule] Sample.no_modules Sample.codex H).
Defined.

(** ** The sample program, run *)

Example sample_base_route : globalBaseRoute (config Sample.codex) = "/v1".
Proof. reflexivity. Qed.

Example sample_mount_paths :
  map (fun c => head (call_args c))
      (app (world_after (registerModules Sample.registrations Sample.codex)))
  = [Some (ArgPath "/v1/users"); Some (ArgPath "/v1/api/admin")].
Proof. vm_compute. reflexivity. Qed.

Example sample_undecorated_module :
  completion_of (registerModules [ItemFunction Sample.UserController] Sample.codex)
  = Throw (Error " UserController is missing @Module() metadata.").
Proof. vm_compute. reflexivity. Qed.

(** [@Controller] makes a class ready to be mounted. *)
Lemma Controller_makes_ready (basePath : option string)
    (middlewares : option (list RequestHandler)) (C : Class) (w : World) :
  controller_ready (Controller basePath middlewares C w) C = true.
Proof.
  unfold controller_ready, isController, Reflect_hasMetadata, Container_has.
  rewrite (own_metadata codex_controller C _ (default "" basePath))
    by (simpl; apply lookup_insert_eq).
  simpl. by rewrite lookup_insert_eq.
Qed.

(** A route decorator on a subclass pushes onto the array it inherits: the
    superclass sees the new descriptor too. *)
Example subclass_route_reaches_superclass :
  let Sub := {| cls_id := 9; cls_name := "Sub"; cls_parents := [1%positive] |} in
  let w := Get (Some "/extra") None Sub (KString "extra") Sample.env in
  length (read_routes Sample.UserController Sample.env) = 2
  /\ length (read_routes Sample.UserController w) = 3
  /\ read_routes Sub w = read_routes Sample.UserController w.
Proof. vm_compute. by repeat split. Qed.

(** * Further properties of the code *)

(** ** Registration as a whole *)

(** X2. Whether it completes or throws, [registerModules] writes neither
    metadata nor route arrays nor any field of the configuration; the
    container keeps every class it knew and every instance it had built;
    the Express application keeps the calls it had and only gets
    [app.use(path, router)] calls whose path starts with the base route. *)
Theorem registerModules_keeps_environment
    (registrations : list ModuleRegistration) (w : World) :
  let w' := world_after (registerModules registrations w) in
  reflect w' = reflect w
  /\ arrays w' = arrays w
  /\ config w' = config w
  /\ (forall id, is_Some (container w !! id) -> is_Some (container w' !! id))
  /\ (forall id value, container w !! id = Some (Some value) ->
                       container w' !! id = Some (Some value))
  /\ exists calls,
       app w' = app w ++ calls
       /\ Forall (mounts_under (globalBaseRoute (config w))) calls.
Proof.
  destruct (registerModules_registers registrations w)
    as [(H1 & H2 & H3 & H4 & H5) H6].
  repeat split; done.
Qed.

(** ** The calls of the API *)

Lemma api_step_refl (w : World) : api_step w w.
Proof. by repeat split. Qed.

Lemma api_step_trans (a b c : World) :
  api_step a b -> api_step b c -> api_step a c.
Proof.
  intros (H1 & H2 & H3 & H4 & H5 & H6 & H7) (G1 & G2 & G3 & G4 & G5 & G6 & G7).
  repeat split; try congruence; auto.
  by etrans.
Qed.

Lemma api_step_express (w : World) (name : string) (args : list Arg) (c : Config) :
  globalMiddlewares c = globalMiddlewares (config w) ->
  notFoundHandler c = notFoundHandler (config w) ->
  api_step w (set_config c (world_after (express name args w))).
Proof.
  intros H1 H2. repeat split; simpl; try done.
  by apply prefix_app_r.
Qed.

Lemma perform_api_step (resolve : string -> string) (c : CodexCall) (w : World) :
  api_step w (world_after (perform resolve c w)).
Proof.
  destruct c; simpl.
  - by apply (api_step_express w _ _ (config w)).
  - unfold baseRoute, Js_write, world_after; simpl.
    destruct (_ || _); by repeat split.
  - by apply (api_step_express w _ _ (config w)).
  - unfold useBefore. destruct (0 <? _); [|apply api_step_refl].
    by apply (api_step_express w _ _ (config w)).
  - by apply (api_step_express w _ _ (config w)).
  - rewrite enableJson_world. destruct (jsonEnabled (config w));
      [apply api_step_refl|].
    repeat split; simpl; try done. by apply prefix_app_r.
  - rewrite enableUrlEncoded_world. destruct (urlEncodedEnabled (config w));
      [apply api_step_refl|].
    repeat split; simpl; try done. by apply prefix_app_r.
  - repeat split; simpl; try done. by apply prefix_app_r.
  - destruct (registerModules_registers registrations w)
      as [(H1 & H2 & H3 & H4 & H5) (calls & H6 & _)].
    repeat split; try done; try (by rewrite H3).
    rewrite H6. by apply prefix_app_r.
Qed.

Lemma perform_all_api_step (resolve : string -> string) (calls : list CodexCall)
    (w : World) :
  api_step w (perform_all resolve calls w).
Proof.
  revert w. induction calls as [|c calls IH]; intros w; simpl.
  - apply api_step_refl.
  - eapply api_step_trans; [apply perform_api_step | apply IH].
Qed.

(** X3. No sequence of calls on a [Codex] object ([get] ... [delete],
    [baseRoute], [use], [useBefore], [handleNotFound], [enableJson],
    [enableUrlEncoded], [serveStatic], [registerModules]), throwing or not,
    changes what the decorators recorded (metadata and route arrays),
    removes or reorders a call the Express application received, or makes
    the container forget a class or replace an instance. *)
Theorem calls_keep_decorations_and_history (resolve : string -> string)
    (calls : list CodexCall) (w : World) :
  let w' := perform_all resolve calls w in
  reflect w' = reflect w
  /\ arrays w' = arrays w
  /\ app w `prefix_of` app w'
  /\ (forall id, is_Some (container w !! id) -> is_Some (container w' !! id))
  /\ (forall id value, container w !! id = Some (Some value) ->
                       container w' !! id = Some (Some value)).
Proof.
  destruct (perform_all_api_step resolve calls w) as (H1 & H2 & H3 & H4 & H5 & _).
  done.
Qed.

(** X4. In a [Codex] object, whatever calls were made since it was created,
    [config.globalMiddlewares] is still empty and [config.notFoundHandler]
    still [null]: no method assigns them. So [handleNotFound()] without
    argument always installs the default 404 handler, and a controller of a
    directly registered module is mounted exactly as in a group with empty
    route prefix and no middlewares. *)
Theorem unassigned_config_fields (resolve : string -> string) (env : World)
    (calls : list CodexCall) :
  let w := perform_all resolve calls (new_Codex env) in
  globalMiddlewares (config w) = []
  /\ notFoundHandler (config w) = None
  /\ app (world_after (handleNotFound None w))
     = app w ++ [{| call_name := "use"; call_args := [ArgHandler DefaultNotFound] |}]
  /\ forall C, registerController C w = registerGroupController "" [] C w.
Proof.
  intros w.
  destruct (perform_all_api_step resolve calls (new_Codex env))
    as (_ & _ & _ & _ & _ & H6 & H7).
  fold w in H6, H7. simpl in H6, H7.
  split; [done|]. split; [done|]. split.
  - unfold handleNotFound, Js_bind, Js_read, world_after; simpl. by rewrite H7.
  - intros C. by rewrite registerController_as_group, H6.
Qed.

(** ** The base route *)

Lemma strip_fixed (s : string) :
  JsString.endsWith_slash s = false -> JsString.strip_trailing_slashes s = s.
Proof.
  induction s as [|c rest IH]; [done|]. simpl.
  destruct rest as [|c' rest'].
  - intros ->. done.
  - intros H. rewrite (IH H). done.
Qed.

Lemma strip_one_more (s : string) :
  JsString.strip_trailing_slashes (s +:+ "/") = JsString.strip_trailing_slashes s.
Proof.
  induction s as [|c rest IH]; [done|].
  change (String c rest +:+ "/") with (String c (rest +:+ "/")).
  simpl. by rewrite IH.
Qed.

Lemma stored_base_world (path : string) (w : World) :
  globalBaseRoute (config (world_after (baseRoute path w))) = stored_base path.
Proof. unfold stored_base. by rewrite !baseRoute_stored. Qed.

Lemma stored_base_value (path : string) :
  stored_base path =
    if bool_decide (path = "") || bool_decide (path = "/") then ""
    else JsString.strip_trailing_slashes
           (if JsString.startsWith_slash path then path else "/" +:+ path).
Proof. unfold stored_base. apply baseRoute_stored. Qed.

(** X5. What [baseRoute] stores does not depend on the world, and it is
    normal: storing the stored value again stores the same; one more ['/']
    at the end of the argument changes nothing; neither does a ['/'] put in
    front of an argument that does not start with one. *)
Theorem baseRoute_normal_form (path : string) (w : World) :
  globalBaseRoute (config (world_after (baseRoute path w))) = stored_base path
  /\ stored_base (stored_base path) = stored_base path
  /\ stored_base (path +:+ "/") = stored_base path
  /\ (JsString.startsWith_slash path = false ->
      stored_base ("/" +:+ path) = stored_base path).
Proof.
  split; [apply stored_base_world|]. split; [|split].
  - destruct (decide (stored_base path = "")) as [->|Hne]; [done|].
    assert (JsString.startsWith_slash (stored_base path) = true
            /\ JsString.endsWith_slash (stored_base path) = false) as [Hs He].
    { rewrite stored_base_value in *. destruct (_ || _); [done|].
      split; [|apply strip_no_trailing_slash].
      rewrite strip_keeps_first by done.
      by destruct (JsString.startsWith_slash path) eqn:E. }
    rewrite (stored_base_value (stored_base path)).
    rewrite bool_decide_eq_false_2 by done.
    destruct (bool_decide (stored_base path = "/")) eqn:E; simpl.
    { apply bool_decide_eq_true in E. by rewrite E in He. }
    rewrite Hs. by apply strip_fixed.
  - rewrite !stored_base_value.
    destruct path as [|c rest]; [done|].
    destruct (decide (String c rest = "/")) as [E|Hne].
    { injection E as -> ->. done. }
    assert (String c rest +:+ "/" <> "") as N1 by done.
    assert (String c rest +:+ "/" <> "/") as N2.
    { change (String c rest +:+ "/") with (String c (rest +:+ "/")).
      intros [= _ H]. by destruct rest. }
    rewrite (bool_decide_eq_false_2 _ N1), (bool_decide_eq_false_2 _ N2).
    rewrite (bool_decide_eq_false_2 (String c rest = "/") Hne).
    rewrite (bool_decide_eq_false_2 (String c rest = "")) by done.
    cbn [orb].
    change (JsString.startsWith_slash (String c rest +:+ "/"))
      with (JsString.startsWith_slash (String c rest)).
    destruct (JsString.startsWith_slash (String c rest)).
    + apply strip_one_more.
    + change ("/" +:+ String c rest +:+ "/")
        with (("/" +:+ String c rest) +:+ "/").
      apply strip_one_more.
  - intros Hs. rewrite !stored_base_value.
    destruct path as [|c rest]; [done|]. simpl in Hs.
    change ("/" +:+ String c rest) with (String "/" (String c rest)).
    rewrite !bool_decide_eq_false_2 by done.
    destruct (bool_decide (String c rest = "/")) eqn:E.
    { apply bool_decide_eq_true in E. injection E as -> _. done. }
    cbn [orb JsString.startsWith_slash]. rewrite Hs. reflexivity.
Qed.

(** ** Static files *)

(** X6. [serveStatic] mounts at a path that depends on its [route] argument
    only (not on the base route or anything else of the world) and always
    starts with ['/']: ['/'] itself when the route is missing or empty, the
    route when it starts with ['/'], the route behind a ['/'] otherwise.
    The call adds exactly one [app.use(mountPath, static)] and leaves the
    configuration alone. *)
Theorem serveStatic_mount_path (route : option string) :
  exists mountPath,
    JsString.startsWith_slash mountPath = true
    /\ (route = None \/ route = Some "" -> mountPath = "/")
    /\ (forall r, route = Some r -> r <> "" ->
          mountPath = if JsString.startsWith_slash r then r else "/" +:+ r)
    /\ forall (resolve : string -> string) dirPath options w,
         let w' := world_after (serveStatic resolve dirPath route options w) in
         app w' = app w ++
           [{| call_name := "use";
               call_args := [ArgPath mountPath;
                             ArgHandler (StaticFiles (resolve dirPath) options)] |}]
         /\ config w' = config w.
Proof.
  destruct route as [r|].
  - destruct (decide (r = "")) as [->|Hne].
    + exists "/". repeat split; try done. by intros r [= <-].
    + exists (if JsString.startsWith_slash r then r else "/" +:+ r).
      split; [by destruct (JsString.startsWith_slash r) eqn:E|].
      split; [intros [H|[= H]]; done|].
      split; [by intros r' [= <-] _|].
      intros resolve dirPath options w.
      unfold serveStatic, Js_bind, world_after; simpl.
      by rewrite bool_decide_eq_false_2.
  - exists "/". repeat split; done.
Qed.

(** ** The wrapped handler, whatever the method does *)

(** X7. Whatever the controller method is and does, the wrapper calls
    [res.json] at most once and [next] at most once; it never calls
    [res.json] when the headers were sent by the time it resumes, and then
    leaves the response as the method left it; and when the instance has no
    callable member under the handler key, it calls [next] once, with a
    [TypeError], and does not touch the response. *)
Theorem wrapper_never_writes_twice
    (methods : Instance -> PropertyKey -> option Method)
    (res_json : JsValue -> Response -> Response * option JsValue)
    (instance : Instance) (handlerKey : PropertyKey)
    (req : Request) (res : Response) :
  let run := handle_request methods res_json instance handlerKey req res in
  length (json_calls (wrapper_calls run)) <= 1
  /\ length (next_calls (wrapper_calls run)) <= 1
  /\ (forall method, methods instance handlerKey = Some method ->
        headersSent (inv_response (method req res)) = true ->
        json_calls (wrapper_calls run) = []
        /\ final_response run = inv_response (method req res))
  /\ (methods instance handlerKey = None ->
        final_response run = res
        /\ exists message, wrapper_calls run = [CallNext (VError message)]).
Proof.
  intros run. subst run.
  assert (length (json_calls (wrapper_calls
            (handle_request methods res_json instance handlerKey req res))) <= 1
          /\ length (next_calls (wrapper_calls
            (handle_request methods res_json instance handlerKey req res))) <= 1)
    as [H1 H2].
  { unfold handle_request.
    destruct (methods instance handlerKey) as [method|]; [|simpl; lia].
    destruct (inv_outcome (method req res)) as [r|error]; [|simpl; lia].
    destruct (await r) as [result|error|]; [|simpl; lia..].
    destruct (negb _ && negb _); [|simpl; lia].
    destruct (res_json result (inv_response (method req res))) as [res' [error|]];
      simpl; lia. }
  split; [exact H1|]. split; [exact H2|]. split.
  - intros method Hm Hh. unfold handle_request. rewrite Hm.
    destruct (inv_outcome (method req res)) as [r|error]; [|done].
    destruct (await r) as [result|error|]; [|done..].
    by rewrite Hh, andb_false_r.
  - intros Hm. unfold handle_request. rewrite Hm. simpl. eauto.
Qed.

(** ** The proxy, for what the [Codex] object has *)

Lemma Codex_members_present (express_app : ExpressApp) (config_ref : nat) :
  Forall (fun name =>
            has_property (Codex_constructor express_app config_ref) (KString name)
            = true)
         Codex_members.
Proof. repeat constructor. Qed.

(** X8. A property the [Codex] object has is answered by the [Codex] object
    and never forwarded: whatever the Express application has under the
    same name is out of reach through the proxy. For an object made by the
    constructor this holds for [app], [config], the five verb methods,
    every member of the class (among them the four blocked names) and the
    members of [Object.prototype], whatever the Express application is. *)
Theorem proxy_answers_for_codex {S : Type}
    (js_apply : string -> JsValue -> list JsValue -> S -> S * (JsValue + JsValue))
    (receiver : JsValue) :
  (forall target prop,
     has_property target prop = true ->
     proxyHandler js_apply target prop receiver = GotValue (Reflect_get target prop))
  /\ (forall express_app config_ref name,
     name ∈ Codex_members ->
     let target := Codex_constructor express_app config_ref in
     proxyHandler js_apply target (KString name) receiver
       = GotValue (Reflect_get target (KString name))
     /\ Reflect_get target (KString name) <> VUndefined)
  /\ Forall (fun name => name ∈ Codex_members) blocked.
Proof.
  assert (forall target prop,
     has_property target prop = true ->
     proxyHandler js_apply target prop receiver = GotValue (Reflect_get target prop))
    as Hgen.
  { intros target prop H. unfold proxyHandler. by rewrite H. }
  split; [exact Hgen|]. split.
  - intros express_app config_ref name Hin target.
    pose proof (Codex_members_present express_app config_ref) as Hall.
    rewrite Forall_forall in Hall. specialize (Hall name Hin).
    split; [by apply Hgen|].
    subst target. clear Hall.
    unfold Codex_members, Codex_prototype, Object_prototype in Hin.
    simpl in Hin. rewrite !elem_of_cons in Hin.
    repeat (destruct Hin as [->|Hin]; [done|]).
    by apply elem_of_nil in Hin.
  - unfold blocked, Codex_members. repeat constructor; set_solver.
Qed.

(** ** Decorations are never undone *)

Lemma insert_keeps_Some {V} (m : gmap positive V) (i j : positive) (v : V) :
  is_Some (m !! j) -> is_Some (<[i := v]> m !! j).
Proof.
  intros H. destruct (decide (i = j)) as [->|Hne].
  - rewrite lookup_insert_eq. eauto.
  - by rewrite lookup_insert_ne.
Qed.


Lemma decorate_keeps (d : Decoration) (w : World) (id : positive) :
  (is_Some (codex_controller (reflect w) !! id) ->
   is_Some (codex_controller (reflect (decorate d w)) !! id))
  /\ (is_Some (codex_module (reflect w) !! id) ->
      is_Some (codex_module (reflect (decorate d w)) !! id))
  /\ (is_Some (container w !! id) -> is_Some (container (decorate d w) !! id)).
Proof.
  destruct d; simpl; repeat split; intros H;
    try (by apply insert_keeps_Some); try done.
  all: unfold createRouteDecorator;
    by destruct (Reflect_getMetadata codex_routes C w).
Qed.

Lemma decorate_all_keeps (ds : list Decoration) (w : World) (id : positive) :
  (is_Some (codex_controller (reflect w) !! id) ->
   is_Some (codex_controller (reflect (decorate_all ds w)) !! id))
  /\ (is_Some (codex_module (reflect w) !! id) ->
      is_Some (codex_module (reflect (decorate_all ds w)) !! id))
  /\ (is_Some (container w !! id) -> is_Some (container (decorate_all ds w) !! id)).
Proof.
  revert w. induction ds as [|d ds IH]; intros w; [done|]. simpl.
  destruct (decorate_keeps d w id) as (H1 & H2 & H3).
  destruct (IH (decorate d w)) as (G1 & G2 & G3).
  repeat split; auto.
Qed.

Lemma hasMetadata_own {V} (key : Metadata -> gmap positive V) (C : Class) (w : World) :
  is_Some (key (reflect w) !! cls_id C) -> Reflect_hasMetadata key C w = true.
Proof.
  intros [v Hv]. unfold Reflect_hasMetadata. by rewrite (own_metadata key C w v).
Qed.

(** X9. Once [@Controller] ran on a class, the class passes
    [assertController] and is known to the container in every later world:
    after any further decorators, on this or other classes, and after any
    calls on a [Codex] object created then. The same holds for [@Module]
    and [assertModule]. *)
Theorem decorated_classes_stay_decorated (resolve : string -> string)
    (C : Class) (later : list Decoration) (calls : list CodexCall) (w : World) :
  (forall basePath middlewares,
     let w' := perform_all resolve calls
                 (new_Codex (decorate_all later (Controller basePath middlewares C w))) in
     assertController C w' = (w', Normal tt) /\ Container_has C w' = true)
  /\ (forall metadata,
     let w' := perform_all resolve calls
                 (new_Codex (decorate_all later (Module_ metadata C w))) in
     assertModule C w' = (w', Normal tt) /\ Container_has C w' = true).
Proof.
  split.
  - intros basePath middlewares w'.
    destruct (decorate_all_keeps later (Controller basePath middlewares C w) (cls_id C))
      as (H1 & _ & H3).
    destruct (perform_all_api_step resolve calls
                (new_Codex (decorate_all later (Controller basePath middlewares C w))))
      as (Hr & _ & _ & Hk & _).
    fold w' in Hr, Hk. split.
    + rewrite assertController_result.
      unfold isController. rewrite hasMetadata_own; [done|].
      rewrite Hr. simpl. apply H1. simpl. rewrite lookup_insert_eq. eauto.
    + unfold Container_has.
      destruct (Hk (cls_id C)) as [entry ->]; [|done].
      simpl. apply H3. simpl. rewrite lookup_insert_eq. eauto.
  - intros metadata w'.
    destruct (decorate_all_keeps later (Module_ metadata C w) (cls_id C))
      as (_ & H2 & H3).
    destruct (perform_all_api_step resolve calls
                (new_Codex (decorate_all later (Module_ metadata C w))))
      as (Hr & _ & _ & Hk & _).
    fold w' in Hr, Hk. split.
    + rewrite assertModule_result.
      unfold isModule. rewrite hasMetadata_own; [done|].
      rewrite Hr. simpl. apply H2. simpl. rewrite lookup_insert_eq. eauto.
    + unfold Container_has.
      destruct (Hk (cls_id C)) as [entry ->]; [|done].
      simpl. apply H3. simpl. rewrite lookup_insert_eq. eauto.
Qed.

(** ** Routes of classes that extend no other class *)










(** ** Routes of a class that extends another *)

Lemma OrdinaryGetMetadata_insert_other {V} (m : gmap positive V) (i : positive)
    (v : V) (chain : list positive) :
  i ∉ chain ->
  OrdinaryGetMetadata (<[i := v]> m) chain = OrdinaryGetMetadata m chain.
Proof.
  induction chain as [|o chain IH]; [done|].
  rewrite not_elem_of_cons. intros [Hne Hchain]. simpl.
  rewrite lookup_insert_ne by done. by rewrite IH.
Qed.

(** X11. When a class extends a class that has routes and has none of its
    own yet, a route decorator on the subclass pushes onto the superclass's
    array: the superclass's routes get the subclass's descriptor too, and
    both classes read the same list afterwards. *)
Theorem subclass_route_lands_in_superclass (method : HttpMethod)
    (path : option string) (middlewares : option (list RequestHandler))
    (Sub Super : Class) (propertyKey : PropertyKey) (w : World) :
  cls_parents Sub = cls_id Super :: cls_parents Super ->
  cls_id Sub ∉ cls_id Super :: cls_parents Super ->
  codex_routes (reflect w) !! cls_id Sub = None ->
  Reflect_hasMetadata codex_routes Super w = true ->
  let w' := createRouteDecorator method path middlewares Sub propertyKey w in
  read_routes Super w' =
    read_routes Super w ++
      [{| rm_method := method; rm_path := default "/" path;
          rm_handler := propertyKey; rm_middlewares := default [] middlewares |}]
  /\ read_routes Sub w' = read_routes Super w'.
Proof.
  intros Hparents Hnotin Hown Hhas w'.
  assert (Reflect_getMetadata codex_routes Sub w
          = Reflect_getMetadata codex_routes Super w) as Hsame.
  { unfold Reflect_getMetadata. rewrite Hparents. simpl. by rewrite Hown. }
  assert (read_routes Sub w = read_routes Super w) as Hread.
  { unfold read_routes. by rewrite Hsame. }
  unfold Reflect_hasMetadata in Hhas.
  destruct (Reflect_getMetadata codex_routes Super w) as [ref|] eqn:E; [|done].
  assert (read_routes Super w' =
          read_routes Super w ++
            [{| rm_method := method; rm_path := default "/" path;
                rm_handler := propertyKey;
                rm_middlewares := default [] middlewares |}]) as Hsuper.
  { subst w'. unfold createRouteDecorator. rewrite Hsame. cbn beta iota zeta.
    unfold read_routes. rewrite E.
    match goal with
    | |- context [Reflect_getMetadata codex_routes Super ?w1] =>
        assert (Reflect_getMetadata codex_routes Super w1 = Some ref) as ->
    end.
    { unfold Reflect_getMetadata in *.
      cbn [reflect set_reflect set_arrays define_codex_routes array_push
           codex_routes].
      by rewrite OrdinaryGetMetadata_insert_other. }
    unfold array_contents at 1. simpl. by rewrite lookup_insert_eq. }
  split; [exact Hsuper|].
  subst w'. rewrite createRouteDecorator_routes, Hread. by rewrite Hsuper.
Qed.

Lemma subclass_route_lands_in_superclass_witness :
  let w' := Get (Some "/special") None SpecialController
              (KString "special") Sample.env in
  read_routes Sample.UserController w' =
    read_routes Sample.UserController Sample.env ++
      [{| rm_method := GET; rm_path := "/special";
          rm_handler := KString "special"; rm_middlewares := [] |}]
  /\ read_routes SpecialController w' = read_routes Sample.UserController w'.
Proof.
  apply (subclass_route_lands_in_superclass GET (Some "/special") None
           SpecialController Sample.UserController (KString "special")
           Sample.env).
  - reflexivity.
  - simpl. intros H. apply elem_of_cons in H as [H|H]; [discriminate|].
    by apply elem_of_nil in H.
  - vm_compute. reflexivity.
  - vm_compute. reflexivity.
Defined.

(** ** Registering again *)

Lemma mounted_functional (w w' : World) (m : Mount) (c1 c2 : AppCall) :
  mounted w w' m c1 -> mounted w w' m c2 -> c1 = c2.
Proof. intros (i1 & H1 & ->) (i2 & H2 & ->). congruence. Qed.

Lemma Forall2_mounted_functional (w w' : World) (ms : list Mount)
    (calls1 calls2 : list AppCall) :
  Forall2 (mounted w w') ms calls1 -> Forall2 (mounted w w') ms calls2 ->
  calls1 = calls2.
Proof.
  intros H1. revert calls2. induction H1 as [|m c1 ms calls1 Hm H1 IH];
    intros calls2 H2; inversion H2 as [|m' c2 ms' calls2' Hm2 H2']; subst; [done|].
  f_equal; [by eapply mounted_functional | by apply IH].
Qed.

Lemma planned_mounts_after_step (w w' : World) (registrations : list ModuleRegistration) :
  registration_step w w' ->
  planned_mounts w' registrations = planned_mounts w registrations.
Proof.
  intros Hs. unfold planned_mounts.
  induction registrations as [|item rest IH]; simpl; [done|].
  by rewrite IH, (item_mounts_after_step w w' item Hs).
Qed.

(** X12. [registerModules] is not idempotent. Called a second time with the
    same decorated registrations it completes again and repeats every
    [app.use]: the Express application receives the same calls once more,
    same paths, same router contents, handlers bound to the same controller
    instances (the container built them during the first pass). *)
Theorem registerModules_twice_mounts_twice
    (registrations : list ModuleRegistration) (w : World) :
  registrable w registrations = true ->
  exists w1 w2 calls,
    registerModules registrations w = (w1, Normal tt)
    /\ registerModules registrations w1 = (w2, Normal tt)
    /\ app w1 = app w ++ calls
    /\ app w2 = app w ++ calls ++ calls
    /\ length calls = length (planned_mounts w registrations).
Proof.
  intros H.
  destruct (mounts_ok_forEach item_ready item_mounts registerItem
              item_ready_after_step item_mounts_after_step
              (fun w item => registerItem_mounts item w)
              registrations w H) as (w1 & calls1 & E1 & S1 & A1 & M1).
  assert (registrable w1 registrations = true) as H1.
  { revert H. apply forallb_after_step. intros item.
    by apply item_ready_after_step. }
  destruct (mounts_ok_forEach item_ready item_mounts registerItem
              item_ready_after_step item_mounts_after_step
              (fun w item => registerItem_mounts item w)
              registrations w1 H1) as (w2 & calls2 & E2 & S2 & A2 & M2).
  fold (planned_mounts w registrations) in M1.
  fold (planned_mounts w1 registrations) in M2.
  rewrite (planned_mounts_after_step w w1 registrations S1) in M2.
  assert (calls1 = calls2) as <-.
  { apply (Forall2_mounted_functional w w2 (planned_mounts w registrations)).
    - eapply Forall2_impl; [exact M1|]. intros m c.
      by apply mounted_after_step.
    - eapply Forall2_impl; [exact M2|]. intros m c.
      by apply mounted_before_step. }
  exists w1, w2, calls1. repeat split; try done.
  - by rewrite A2, A1, app_assoc.
  - symmetry. by eapply Forall2_length.
Qed.

Lemma registerModules_twice_mounts_twice_witness :
  registrable Sample.codex Sample.registrations = true
  /\ exists w1 w2 calls,
       registerModules Sample.registrations Sample.codex = (w1, Normal tt)
       /\ registerModules Sample.registrations w1 = (w2, Normal tt)
       /\ app w1 = app Sample.codex ++ calls
       /\ app w2 = app Sample.codex ++ calls ++ calls
       /\ length calls = length (planned_mounts Sample.codex Sample.registrations).
Proof.
  assert (registrable Sample.codex Sample.registrations = true) as H
    by (vm_compute; reflexivity).
  split; [exact H|].
  exact (registerModules_twice_mounts_twice Sample.registrations Sample.codex H).
Defined.

(** ** The two registration paths side by side *)

Lemma direct_providers_known_skipped (ps : list Class) (w : World) :
  forallb (fun P => Container_has P w) ps = true ->
  forEach (fun provider =>
     Js_bind (Js_read (Container_has provider))
       (fun known => if negb known then Container_set_new provider
                     else Js_ret tt)) ps w
  = (w, Normal tt).
Proof.
  induction ps as [|P ps IH]; simpl; [done|].
  rewrite andb_true_iff. intros [HP Hps].
  unfold Js_bind at 1. rewrite known_provider_skipped by done. by apply IH.
Qed.

Lemma controllers_same_on_both_paths (cs : list Class) (w : World) :
  globalMiddlewares (config w) = [] ->
  forEach registerController cs w = forEach (registerGroupController "" []) cs w.
Proof.
  revert w. induction cs as [|C cs IH]; intros w Hg; simpl; [done|].
  unfold Js_bind. rewrite registerController_as_group, Hg.
  pose proof (registerGroupController_registers "" [] C w) as [(_ & _ & Hc & _) _].
  unfold world_after in Hc.
  destruct (registerGroupController "" [] C w) as [w1 [[]|e]]; [|done].
  simpl in Hc. apply IH. by rewrite Hc.
Qed.

Lemma Js_bind_ext {A B} (c : Js A) (k1 k2 : A -> Js B) (w : World) :
  (forall a w1, c w = (w1, Normal a) -> k1 a w1 = k2 a w1) ->
  Js_bind c k1 w = Js_bind c k2 w.
Proof. intros H. unfold Js_bind. destruct (c w) as [w1 [a|e]]; auto. Qed.

Lemma Js_bind_run {A B} (c : Js A) (k : A -> Js B) (w w1 : World) (a : A) :
  c w = (w1, Normal a) -> Js_bind c k w = k a w1.
Proof. intros H. unfold Js_bind. by rewrite H. Qed.

Lemma module_same_on_both_paths (M : Class) (w : World) :
  globalMiddlewares (config w) = [] ->
  providers_known w M = true ->
  registerGroupModule "" [] M w = registerModuleClass M w.
Proof.
  intros Hg Hp. unfold registerGroupModule, registerModuleClass.
  apply Js_bind_ext. intros [] w1. rewrite assertModule_result.
  intros [= <- _].
  apply Js_bind_ext. intros m w1. unfold read_module.
  unfold providers_known, module_providers in Hp.
  destruct (Reflect_getMetadata codex_module M w) as [m'|]; [|done].
  intros [= <- <-]. cbv zeta.
  rewrite (Js_bind_run _ _ _ _ _ (group_providers_quiet _ _ Hp)).
  rewrite (Js_bind_run _ _ _ _ _ (direct_providers_known_skipped _ _ Hp)).
  unfold registerControllers. rewrite !if_length_forEach.
  unfold Js_bind. by rewrite controllers_same_on_both_paths.
Qed.

(** X13. Listing modules in a group that has no route prefix and no
    middlewares is the same as passing the module classes themselves,
    provided the container knows their providers (as it does when they
    carry [@Service] or [@Repo]): same completion, same mounts, same
    console lines, same container. *)
Theorem bare_group_is_direct_registration (o : RegistrationObject)
    (mods : list Class) (w : World) :
  reg_modules o = ModulesArray mods ->
  default "" (reg_route o) = "" ->
  default [] (reg_middlewares o) = [] ->
  globalMiddlewares (config w) = [] ->
  forallb (providers_known w) mods = true ->
  registerItem (ItemObject o) w = registerModules (map ItemFunction mods) w.
Proof.
  intros Hm Hr Hmw Hg Hp. simpl. rewrite Hm, Hr, Hmw. clear Hm Hr Hmw.
  unfold registerModules.
  revert w Hg Hp. induction mods as [|M mods IH]; intros w Hg Hp; simpl; [done|].
  simpl in Hp. apply andb_true_iff in Hp as [HM Hmods].
  unfold Js_bind. rewrite module_same_on_both_paths by done.
  pose proof (registerItem_registers (ItemFunction M) w) as [Hs _].
  simpl in Hs. unfold world_after in Hs.
  destruct (registerModuleClass M w) as [w1 [[]|e]]; [|done].
  simpl in Hs. apply IH.
  - destruct Hs as (_ & _ & -> & _). done.
  - revert Hmods. apply forallb_after_step. intros M'.
    unfold providers_known.
    destruct (reads_after_step w w1 M' Hs) as (_ & _ & _ & _ & -> & _).
    apply (forallb_after_step (fun w P => Container_has P w)).
    intros P. by apply Container_has_after_step.
Qed.

Lemma bare_group_is_direct_registration_witness :
  registerItem (ItemObject bare_group) Sample.codex
  = registerModules [ItemFunction Sample.UserModule] Sample.codex.
Proof.
  apply (bare_group_is_direct_registration bare_group [Sample.UserModule]
           Sample.codex); reflexivity.
Defined.

(** ** Providers of a module registered directly *)

Lemma direct_provider_step (P : Class) (w : World) :
  Js_bind (Js_read (Container_has P))
    (fun known => if negb known then Container_set_new P else Js_ret tt) w
  = (if Container_has P w then w
     else set_container (<[cls_id P := Some (new_instance P w)]> (container w))
                        (S (next_serial w)) w,
     Normal tt).
Proof. unfold Js_bind, Js_read. by destruct (Container_has P w). Qed.

Lemma direct_providers_result (ps : list Class) (w : World) :
  exists w1,
    forEach (fun provider =>
       Js_bind (Js_read (Container_has provider))
         (fun known => if negb known then Container_set_new provider
                       else Js_ret tt)) ps w = (w1, Normal tt)
    /\ registration_step w w1
    /\ forall P, P ∈ ps ->
         match container w !! cls_id P with
         | Some _ => True
         | None => exists value, container w1 !! cls_id P = Some (Some value)
                                 /\ inst_class value = cls_id P
         end.
Proof.
  revert w. induction ps as [|P0 ps IH]; intros w.
  - exists w. split; [done|]. split; [apply registration_step_refl|].
    intros P HP. by apply elem_of_nil in HP.
  - simpl.
    pose proof (Container_set_new_step P0 w) as Hs0.
    unfold world_after in Hs0. rewrite direct_provider_step in Hs0. simpl in Hs0.
    unfold Js_bind at 1. rewrite direct_provider_step.
    set (w0 := if Container_has P0 w then w
               else set_container
                      (<[cls_id P0 := Some (new_instance P0 w)]> (container w))
                      (S (next_serial w)) w) in *.
    destruct (IH w0) as (w1 & E1 & Hs1 & Hps).
    exists w1. split; [exact E1|].
    split; [by eapply registration_step_trans|].
    intros P HP.
    destruct (container w !! cls_id P) as [entry|] eqn:EP; [done|].
    destruct (decide (cls_id P = cls_id P0)) as [Heq|Hne].
    + assert (container w0 !! cls_id P = Some (Some (new_instance P0 w))) as H0.
      { subst w0. unfold Container_has. rewrite <- Heq, EP. simpl.
        apply lookup_insert_eq. }
      exists (new_instance P0 w). split; [|by simpl].
      destruct Hs1 as (_ & _ & _ & _ & Hv). by apply Hv.
    + apply elem_of_cons in HP as [->|HP]; [done|].
      specialize (Hps P HP).
      assert (container w0 !! cls_id P = None) as H0.
      { subst w0. destruct (Container_has P0 w); simpl; [done|].
        by rewrite lookup_insert_ne. }
      by rewrite H0 in Hps.
Qed.

(** X14. When a module class is registered directly, every provider it
    lists that the container does not know yet is instantiated on the spot
    and stored as the container's value for that class; afterwards the
    container knows all the listed providers, also when a later step of the
    registration throws. *)
Theorem direct_registration_provides (M : Class) (w : World) :
  isModule M w = true ->
  let w' := world_after (registerModuleClass M w) in
  forall P, P ∈ module_providers M w ->
    Container_has P w' = true
    /\ (Container_has P w = false ->
        exists value, container w' !! cls_id P = Some (Some value)
                      /\ inst_class value = cls_id P).
Proof.
  intros HM w' P HP.
  destruct (isModule_metadata M w HM) as [m Hm].
  unfold module_providers in HP. rewrite Hm in HP.
  destruct (direct_providers_result (default [] (providers m)) w)
    as (w1 & E1 & Hs1 & Hps).
  specialize (Hps P HP).
  assert (registration_step w1 w') as Hs2.
  { subst w'. unfold registerModuleClass.
    assert (assertModule M w = (w, Normal tt)) as Hassert
      by (by rewrite assertModule_result, HM).
    assert (read_module M w = (w, Normal m)) as Hread
      by (unfold read_module; by rewrite Hm).
    rewrite (Js_bind_run _ _ _ _ _ Hassert), (Js_bind_run _ _ _ _ _ Hread).
    cbv zeta. rewrite (Js_bind_run _ _ _ _ _ E1).
    assert (respects registers
              (Js_bind (if 0 <? length (default [] (controllers m))
                        then registerControllers (default [] (controllers m))
                        else Js_ret tt)
                 (fun _ => console_log ("✓ Loaded module: " +:+ cls_name M))))
      as Hr by (unfold registerControllers; step_through).
    apply Hr. }
  unfold Container_has.
  destruct (container w !! cls_id P) as [entry|] eqn:EP.
  - split; [|done].
    destruct Hs1 as (_ & _ & _ & Hk1 & _). destruct Hs2 as (_ & _ & _ & Hk2 & _).
    destruct (Hk2 (cls_id P)) as [e ->]; [|done].
    apply Hk1. rewrite EP. eauto.
  - destruct Hps as (value & Hv & Hc).
    destruct Hs2 as (_ & _ & _ & _ & Hv2).
    rewrite (Hv2 _ _ Hv). split; [done|]. intros _. eauto.
Qed.

Lemma direct_registration_provides_witness :
  let w' := world_after (registerModuleClass MailModule mail_world) in
  Container_has MailService mail_world = false
  /\ Container_has MailService w' = true
  /\ exists value, container w' !! cls_id MailService = Some (Some value)
                   /\ inst_class value = cls_id MailService.
Proof.
  intros w'.
  destruct (direct_registration_provides MailModule mail_world eq_refl MailService)
    as [H1 H2].
  - vm_compute. constructor.
  - split; [reflexivity|]. split; [exact H1|]. apply H2. reflexivity.
Defined.

(** * The assertions at the places registration expects a class *)

Lemma Js_bind_throw {A B} (c : Js A) (k : A -> Js B) (w w' : World) (e : JsError) :
  Js_bind c k w = (w', Throw e) ->
  c w = (w', Throw e)
  \/ exists a w1, c w = (w1, Normal a) /\ k a w1 = (w', Throw e).
Proof.
  unfold Js_bind. destruct (c w) as [w1 [a|e1]]; intros H.
  - right. by exists a, w1.
  - left. by injection H as -> ->.
Qed.

Lemma Js_bind_normal {A B} (c : Js A) (k : A -> Js B) (w w' : World) (b : B) :
  Js_bind c k w = (w', Normal b) ->
  exists a w1, c w = (w1, Normal a) /\ k a w1 = (w', Normal b).
Proof.
  unfold Js_bind. destruct (c w) as [w1 [a|e1]]; intros H; [|done].
  by exists a, w1.
Qed.

Lemma step_of_run {A} (c : Js A) (w w1 : World) (r : Completion A) :
  respects registers c -> c w = (w1, r) -> registration_step w w1.
Proof.
  intros Hc E. specialize (Hc w). unfold world_after in Hc. rewrite E in Hc.
  apply Hc.
Qed.

(** A [forEach] that throws, throws in the callback of one element, run in
    a world the earlier elements left. *)
Lemma forEach_thrown {A} (callback : A -> Js unit) (l : list A)
    (w w' : World) (e : JsError) :
  (forall x, respects registers (callback x)) ->
  forEach callback l w = (w', Throw e) ->
  exists x w1, x ∈ l /\ registration_step w w1 /\ callback x w1 = (w', Throw e).
Proof.
  intros Hc. revert w. induction l as [|x l IH]; intros w; simpl; [done|].
  intros H. apply Js_bind_throw in H as [H | ([] & w1 & H1 & H2)].
  - exists x, w. split; [constructor|]. split; [apply registration_step_refl | done].
  - destruct (IH w1 H2) as (y & w2 & Hy & Hs & Hr).
    exists y, w2. split; [by constructor|]. split; [|done].
    eapply registration_step_trans; [|exact Hs].
    by eapply step_of_run.
Qed.

(** A [forEach] that completes, completed the callback of every element. *)
Lemma forEach_completed {A} (callback : A -> Js unit) (l : list A) (w w' : World) :
  (forall x, respects registers (callback x)) ->
  forEach callback l w = (w', Normal tt) ->
  forall x, x ∈ l ->
    exists w1 w2, registration_step w w1 /\ callback x w1 = (w2, Normal tt).
Proof.
  intros Hc. revert w. induction l as [|y l IH]; intros w; simpl.
  - intros _ x Hx. by apply elem_of_nil in Hx.
  - intros H x Hx. apply Js_bind_normal in H as ([] & w1 & H1 & H2).
    apply elem_of_cons in Hx as [->|Hx].
    + exists w, w1. split; [apply registration_step_refl | done].
    + destruct (IH w1 H2 x Hx) as (w2 & w3 & Hs & Hr).
      exists w2, w3. split; [|done].
      eapply registration_step_trans; [|exact Hs]. by eapply step_of_run.
Qed.

Lemma string_last_append (a b : string) (d : ascii) :
  string_last b = Some d -> string_last (a +:+ b) = Some d.
Proof.
  intros H. induction a as [|c a IH]; [exact H|].
  change (String c a +:+ b) with (String c (a +:+ b)). simpl. by rewrite IH.
Qed.

Lemma assertion_errors_differ (M C : Class) : module_error M <> controller_error C.
Proof.
  unfold module_error, controller_error. intros [= H].
  apply (f_equal string_last) in H.
  rewrite (string_last_append " " _ "."), (string_last_append _ _ "?") in H;
    [done| |]; by apply string_last_append.
Qed.

Lemma Container_get_thrown (C : Class) (w w' : World) (e : JsError) :
  Container_get C w = (w', Throw e) -> e = ServiceNotFoundError (cls_id C).
Proof.
  unfold Container_get. destruct (container w !! cls_id C) as [[value|]|]; congruence.
Qed.

(** What the callback of a group's controllers can throw. *)
Lemma registerGroupController_thrown (routePrefix : string)
    (middlewares : list RequestHandler) (C : Class) (w w' : World) (e : JsError) :
  registerGroupController routePrefix middlewares C w = (w', Throw e) ->
  (isController C w = false /\ e = controller_error C)
  \/ (isController C w = true /\ e = ServiceNotFoundError (cls_id C)).
Proof.
  unfold registerGroupController. unfold Js_bind at 1.
  rewrite assertController_result.
  destruct (isController C w); [|intros [= <- <-]; by left].
  unfold Js_bind, Js_read, express, console_log, Js_write.
  destruct (Container_get C w) as [w2 [instance|e2]] eqn:G; [done|].
  intros [= <- <-]. right. split; [done|]. by eapply Container_get_thrown.
Qed.

Lemma registerController_thrown (C : Class) (w w' : World) (e : JsError) :
  registerController C w = (w', Throw e) ->
  (isController C w = false /\ e = controller_error C)
  \/ (isController C w = true /\ e = ServiceNotFoundError (cls_id C)).
Proof. rewrite registerController_as_group. apply registerGroupController_thrown. Qed.

Lemma registerGroupController_completed (routePrefix : string)
    (middlewares : list RequestHandler) (C : Class) (w w' : World) :
  registerGroupController routePrefix middlewares C w = (w', Normal tt) ->
  isController C w = true.
Proof.
  unfold registerGroupController. unfold Js_bind at 1.
  rewrite assertController_result. by destruct (isController C w).
Qed.

Lemma registerController_completed (C : Class) (w w' : World) :
  registerController C w = (w', Normal tt) -> isController C w = true.
Proof. rewrite registerController_as_group. apply registerGroupController_completed. Qed.

(** The providers loop of a group throws nothing but the container's error. *)
Lemma group_providers_thrown (ps : list Class) (w w' : World) (e : JsError) :
  forEach (fun provider =>
     Js_bind (Js_read (Container_has provider))
       (fun known => if negb known
                     then Js_bind (Container_get provider) (fun _ => Js_ret tt)
                     else Js_ret tt)) ps w = (w', Throw e) ->
  is_plain_Error e = false.
Proof.
  intros H. apply forEach_thrown in H as (P & w1 & _ & _ & H); [|step_through].
  unfold Js_bind, Js_read in H. destruct (Container_has P w1); simpl in H; [done|].
  destruct (Container_get P w1) as [w2 [value|e2]] eqn:G; [done|].
  injection H as <- <-. by rewrite (Container_get_thrown _ _ _ _ G).
Qed.

(** The controllers loop of a module: what it throws is the error of a
    controller of the list without [@Controller], or the container's. *)
Lemma controllers_thrown (callback : Class -> Js unit) (cs : list Class)
    (w w' : World) (e : JsError) :
  (forall C, respects registers (callback C)) ->
  (forall C w w' e, callback C w = (w', Throw e) ->
     (isController C w = false /\ e = controller_error C)
     \/ (isController C w = true /\ e = ServiceNotFoundError (cls_id C))) ->
  (if 0 <? length cs then forEach callback cs else Js_ret tt) w = (w', Throw e) ->
  (exists C, C ∈ cs /\ isController C w = false /\ e = controller_error C)
  \/ is_plain_Error e = false.
Proof.
  intros Hr Hc. rewrite if_length_forEach. intros H.
  apply forEach_thrown in H as (C & w1 & HC & Hs & H); [|done].
  destruct (reads_after_step w w1 C Hs) as (_ & _ & _ & _ & _ & HisC & _).
  apply Hc in H as [[H1 ->] | [_ ->]]; [left | by right].
  exists C. rewrite <- HisC. done.
Qed.

Lemma controllers_completed (callback : Class -> Js unit) (cs : list Class)
    (w w' : World) :
  (forall C, respects registers (callback C)) ->
  (forall C w w', callback C w = (w', Normal tt) -> isController C w = true) ->
  (if 0 <? length cs then forEach callback cs else Js_ret tt) w = (w', Normal tt) ->
  forall C, C ∈ cs -> isController C w = true.
Proof.
  intros Hr Hc. rewrite if_length_forEach. intros H C HC.
  destruct (forEach_completed _ _ _ _ Hr H C HC) as (w1 & w2 & Hs & Hrun).
  destruct (reads_after_step w w1 C Hs) as (_ & _ & _ & _ & _ & HisC & _).
  rewrite <- HisC. by eapply Hc.
Qed.

Lemma read_module_decorated (M : Class) (w : World) :
  isModule M w = true ->
  exists m, read_module M w = (w, Normal m)
            /\ module_controllers M w = default [] (controllers m).
Proof.
  intros H. destruct (isModule_metadata M w H) as [m Hm]. exists m.
  unfold read_module, module_controllers. by rewrite Hm.
Qed.

Lemma group_providers_registers (ps : list Class) :
  respects registers
    (forEach (fun provider =>
       Js_bind (Js_read (Container_has provider))
         (fun known => if negb known
                       then Js_bind (Container_get provider) (fun _ => Js_ret tt)
                       else Js_ret tt)) ps).
Proof. step_through. Qed.

Lemma direct_providers_registers (ps : list Class) :
  respects registers
    (forEach (fun provider =>
       Js_bind (Js_read (Container_has provider))
         (fun known => if negb known then Container_set_new provider
                       else Js_ret tt)) ps).
Proof. step_through. Qed.

Lemma console_log_result (line : string) (w : World) :
  exists w', console_log line w = (w', Normal tt).
Proof. by eexists. Qed.

(** What registering a member of a group can throw. *)
Lemma registerGroupModule_thrown (routePrefix : string)
    (middlewares : list RequestHandler) (M : Class) (w w' : World) (e : JsError) :
  registerGroupModule routePrefix middlewares M w = (w', Throw e) ->
  (isModule M w = false /\ e = module_error M)
  \/ (isModule M w = true
      /\ ((exists C, C ∈ module_controllers M w
                     /\ isController C w = false /\ e = controller_error C)
          \/ is_plain_Error e = false)).
Proof.
  unfold registerGroupModule. unfold Js_bind at 1. rewrite assertModule_result.
  destruct (isModule M w) eqn:HM; [|intros [= <- <-]; by left].
  intros H. right. split; [done|].
  destruct (read_module_decorated M w HM) as (m & Hm & ->).
  rewrite (Js_bind_run _ _ _ _ _ Hm) in H.
  apply Js_bind_throw in H as [H | ([] & w1 & H1 & H)].
  { right. by eapply group_providers_thrown. }
  pose proof (step_of_run _ _ _ _ (group_providers_registers _) H1) as Hs.
  apply Js_bind_throw in H as [H | ([] & w2 & _ & H)]; [|done].
  apply controllers_thrown in H as [(C & HC & HisC & ->) | H]; [left | by right | |].
  - exists C.
    destruct (reads_after_step w w1 C Hs) as (_ & _ & _ & _ & _ & <- & _). done.
  - intros C. apply registerGroupController_registers.
  - intros C w0 w0' e0. apply registerGroupController_thrown.
Qed.

(** What registering a class handed over directly can throw. *)
Lemma registerModuleClass_thrown (M : Class) (w w' : World) (e : JsError) :
  registerModuleClass M w = (w', Throw e) ->
  (isModule M w = false /\ e = module_error M)
  \/ (isModule M w = true
      /\ ((exists C, C ∈ module_controllers M w
                     /\ isController C w = false /\ e = controller_error C)
          \/ is_plain_Error e = false)).
Proof.
  unfold registerModuleClass. unfold Js_bind at 1. rewrite assertModule_result.
  destruct (isModule M w) eqn:HM; [|intros [= <- <-]; by left].
  intros H. right. split; [done|].
  destruct (read_module_decorated M w HM) as (m & Hm & ->).
  rewrite (Js_bind_run _ _ _ _ _ Hm) in H.
  apply Js_bind_throw in H as [H | ([] & w1 & H1 & H)].
  { destruct (direct_providers_result (default [] (providers m)) w)
      as (w1 & E & _). congruence. }
  pose proof (step_of_run _ _ _ _ (direct_providers_registers _) H1) as Hs.
  apply Js_bind_throw in H as [H | ([] & w2 & _ & H)]; [|done].
  unfold registerControllers in H.
  apply controllers_thrown in H as [(C & HC & HisC & ->) | H]; [left | by right | |].
  - exists C.
    destruct (reads_after_step w w1 C Hs) as (_ & _ & _ & _ & _ & <- & _). done.
  - intros C. apply registerController_registers.
  - intros C w0 w0' e0. apply registerController_thrown.
Qed.

Lemma registerGroupModule_completed (routePrefix : string)
    (middlewares : list RequestHandler) (M : Class) (w w' : World) :
  registerGroupModule routePrefix middlewares M w = (w', Normal tt) ->
  isModule M w = true
  /\ forall C, C ∈ module_controllers M w -> isController C w = true.
Proof.
  unfold registerGroupModule. unfold Js_bind at 1. rewrite assertModule_result.
  destruct (isModule M w) eqn:HM; [|done].
  intros H. split; [done|].
  destruct (read_module_decorated M w HM) as (m & Hm & ->).
  rewrite (Js_bind_run _ _ _ _ _ Hm) in H.
  apply Js_bind_normal in H as ([] & w1 & H1 & H).
  pose proof (step_of_run _ _ _ _ (group_providers_registers _) H1) as Hs.
  apply Js_bind_normal in H as ([] & w2 & H & _).
  intros C HC.
  destruct (reads_after_step w w1 C Hs) as (_ & _ & _ & _ & _ & <- & _).
  revert C HC. eapply controllers_completed; [| |exact H].
  - intros C. apply registerGroupController_registers.
  - intros C w0 w0'. apply registerGroupController_completed.
Qed.

Lemma registerModuleClass_completed (M : Class) (w w' : World) :
  registerModuleClass M w = (w', Normal tt) ->
  isModule M w = true
  /\ forall C, C ∈ module_controllers M w -> isController C w = true.
Proof.
  unfold registerModuleClass. unfold Js_bind at 1. rewrite assertModule_result.
  destruct (isModule M w) eqn:HM; [|done].
  intros H. split; [done|].
  destruct (read_module_decorated M w HM) as (m & Hm & ->).
  rewrite (Js_bind_run _ _ _ _ _ Hm) in H.
  apply Js_bind_normal in H as ([] & w1 & H1 & H).
  pose proof (step_of_run _ _ _ _ (direct_providers_registers _) H1) as Hs.
  apply Js_bind_normal in H as ([] & w2 & H & _).
  unfold registerControllers in H.
  intros C HC.
  destruct (reads_after_step w w1 C Hs) as (_ & _ & _ & _ & _ & <- & _).
  revert C HC. eapply controllers_completed; [| |exact H].
  - intros C. apply registerController_registers.
  - intros C w0 w0'. apply registerController_completed.
Qed.

Lemma site_modules_item (item : ModuleRegistration)
    (registrations : list ModuleRegistration) (M : Class) :
  item ∈ registrations -> M ∈ site_modules [item] -> M ∈ site_modules registrations.
Proof.
  rewrite !list_elem_of_In. unfold site_modules. rewrite !in_flat_map.
  intros Hi (item' & [<-|[]] & HM). eauto.
Qed.

Lemma site_modules_of (registrations : list ModuleRegistration) (M : Class) :
  M ∈ site_modules registrations ->
  exists item, item ∈ registrations /\ M ∈ site_modules [item].
Proof.
  rewrite list_elem_of_In. unfold site_modules at 1. rewrite in_flat_map.
  intros (item & Hi & HM). exists item. rewrite !list_elem_of_In.
  split; [done|]. unfold site_modules. simpl. by rewrite app_nil_r.
Qed.

Lemma assertion_failed_back (mods : list Class) (w w1 : World) (e : JsError) :
  registration_step w w1 -> assertion_failed mods w1 e -> assertion_failed mods w e.
Proof.
  intros Hs [(M & HM & H1 & H2) | (M & C & HM & H1 & H2 & H3 & H4)].
  - left. exists M.
    destruct (reads_after_step w w1 M Hs) as (_ & _ & _ & _ & _ & _ & <-). done.
  - right. exists M, C.
    destruct (reads_after_step w w1 M Hs) as (_ & _ & _ & <- & _ & _ & <-).
    destruct (reads_after_step w w1 C Hs) as (_ & _ & _ & _ & _ & <- & _). done.
Qed.

Lemma registerItem_thrown (item : ModuleRegistration) (w w' : World) (e : JsError) :
  registerItem item w = (w', Throw e) ->
  is_plain_Error e = true ->
  assertion_failed (site_modules [item]) w e.
Proof.
  destruct item as [M|o|v]; simpl.
  - intros H He.
    apply registerModuleClass_thrown in H
      as [[H1 ->] | [H1 [(C & HC & H2 & ->) | H2]]]; [| |congruence].
    + left. exists M. split; [constructor | done].
    + right. exists M, C. split; [constructor | done].
  - destruct (reg_modules o) as [| |mods]; [done..|].
    rewrite app_nil_r. intros H He.
    apply forEach_thrown in H as (M & w1 & HM & Hs & H).
    2:{ intros M. unfold registerGroupModule. step_through. }
    apply (assertion_failed_back _ _ _ _ Hs).
    apply registerGroupModule_thrown in H
      as [[H1 ->] | [H1 [(C & HC & H2 & ->) | H2]]]; [| |congruence].
    + left. by exists M.
    + right. by exists M, C.
  - intros [= <- <-]. done.
Qed.

Lemma registerItem_completed (item : ModuleRegistration) (w w' : World) :
  registerItem item w = (w', Normal tt) ->
  forall M, M ∈ site_modules [item] ->
    isModule M w = true
    /\ forall C, C ∈ module_controllers M w -> isController C w = true.
Proof.
  destruct item as [M0|o|v]; simpl.
  - intros H M HM. apply list_elem_of_singleton in HM as ->.
    by eapply registerModuleClass_completed.
  - destruct (reg_modules o) as [| |mods];
      [intros _ M HM; by apply elem_of_nil in HM..|].
    rewrite app_nil_r. intros H M HM.
    assert (forall M, respects registers
              (registerGroupModule (default "" (reg_route o))
                 (default [] (reg_middlewares o)) M)) as Hr
      by (intros M'; unfold registerGroupModule; step_through).
    destruct (forEach_completed _ _ _ _ Hr H M HM) as (w1 & w2 & Hs & Hrun).
    apply registerGroupModule_completed in Hrun as [H1 H2].
    destruct (reads_after_step w w1 M Hs) as (_ & _ & _ & <- & _ & _ & <-).
    split; [done|]. intros C HC.
    destruct (reads_after_step w w1 C Hs) as (_ & _ & _ & _ & _ & <- & _). auto.
  - done.
Qed.

Lemma registerModules_thrown (registrations : list ModuleRegistration)
    (w w' : World) (e : JsError) :
  registerModules registrations w = (w', Throw e) ->
  is_plain_Error e = true ->
  assertion_failed (site_modules registrations) w e.
Proof.
  intros H He.
  apply forEach_thrown in H as (item & w1 & Hi & Hs & H);
    [|apply registerItem_registers].
  apply (assertion_failed_back _ _ _ _ Hs).
  destruct (registerItem_thrown item w1 w' e H He)
    as [(M & HM & H1) | (M & C & HM & H1)]; [left; exists M | right; exists M, C];
    (split; [by eapply site_modules_item | done]).
Qed.

Lemma registerModules_completed (registrations : list ModuleRegistration)
    (w w' : World) :
  registerModules registrations w = (w', Normal tt) ->
  forall M, M ∈ site_modules registrations ->
    isModule M w = true
    /\ forall C, C ∈ module_controllers M w -> isController C w = true.
Proof.
  intros H M HM. apply site_modules_of in HM as (item & Hi & HM).
  destruct (forEach_completed _ _ _ _ registerItem_registers H item Hi)
    as (w1 & w2 & Hs & Hrun).
  destruct (registerItem_completed item w1 w2 Hrun M HM) as [H1 H2].
  destruct (reads_after_step w w1 M Hs) as (_ & _ & _ & <- & _ & _ & <-).
  split; [done|]. intros C HC.
  destruct (reads_after_step w w1 C Hs) as (_ & _ & _ & _ & _ & <- & _). auto.
Qed.

(** C3. Wherever registration expects a module or a controller (an item of
    [registerModules] that is a class, a member of a group's [modules], a
    class in a module's [controllers] on either path) it first asserts the
    decorator. The assertion throws exactly when the class lacks the
    metadata; the message carries the class name, or [(anonymous class)]
    when the name is empty, and names [@Module()] or [@Controller], and the
    two messages never coincide. At each of the four places a class
    without the metadata makes the step throw that error at once, the
    world untouched, and the throw ends the enclosing [forEach]. A class
    with the metadata is never the subject of the error: a controller that
    carries [@Controller] throws nothing but the container's
    [ServiceNotFoundError]; a module that carries [@Module] throws no
    [Error] but that of one of its own controllers lacking [@Controller].
    For the whole pass: every [Error] thrown is the error of a module at
    one of these places, or of a controller listed by such a module, that
    lacks the metadata; and a pass that completes met only decorated
    classes. Constructors of providers and controllers are taken to
    return. *)
Theorem registration_asserts_decorators :
  (forall C w,
     assertModule C w = (w, if isModule C w then Normal tt else Throw (module_error C)))
  /\ (forall C w,
     assertController C w =
       (w, if isController C w then Normal tt else Throw (controller_error C)))
  /\ (forall C,
     let shown := if decide (cls_name C = "") then "(anonymous class)" else cls_name C in
     module_error C = Error (" " +:+ shown +:+ " is missing @Module() metadata.")
     /\ controller_error C =
          Error (shown +:+ " is missing @Controller decorator. "
                 +:+ "Did you forget to add @Controller() to the class?"))
  /\ (forall M C, module_error M <> controller_error C)
  /\ (forall C w, isModule C w = false ->
     registerItem (ItemFunction C) w = (w, Throw (module_error C)))
  /\ (forall routePrefix middlewares C w, isModule C w = false ->
     registerGroupModule routePrefix middlewares C w = (w, Throw (module_error C)))
  /\ (forall C w, isController C w = false ->
     registerController C w = (w, Throw (controller_error C)))
  /\ (forall routePrefix middlewares C w, isController C w = false ->
     registerGroupController routePrefix middlewares C w
       = (w, Throw (controller_error C)))
  /\ (forall C w w' e, isController C w = true ->
     registerController C w = (w', Throw e) ->
     e = ServiceNotFoundError (cls_id C))
  /\ (forall routePrefix middlewares C w w' e, isController C w = true ->
     registerGroupController routePrefix middlewares C w = (w', Throw e) ->
     e = ServiceNotFoundError (cls_id C))
  /\ (forall M w w' e, isModule M w = true ->
     registerItem (ItemFunction M) w = (w', Throw e) ->
     is_plain_Error e = true ->
     e <> module_error M
     /\ exists C, C ∈ module_controllers M w
                  /\ isController C w = false /\ e = controller_error C)
  /\ (forall routePrefix middlewares M w w' e, isModule M w = true ->
     registerGroupModule routePrefix middlewares M w = (w', Throw e) ->
     is_plain_Error e = true ->
     e <> module_error M
     /\ exists C, C ∈ module_controllers M w
                  /\ isController C w = false /\ e = controller_error C)
  /\ (forall (A : Type) (callback : A -> Js unit) before x after w w1 w2 e,
     forEach callback before w = (w1, Normal tt) ->
     callback x w1 = (w2, Throw e) ->
     forEach callback (before ++ x :: after) w = (w2, Throw e))
  /\ (forall registrations w w' e,
     registerModules registrations w = (w', Throw e) ->
     is_plain_Error e = true ->
     assertion_failed (site_modules registrations) w e)
  /\ (forall registrations w w',
     registerModules registrations w = (w', Normal tt) ->
     forall M, M ∈ site_modules registrations ->
       isModule M w = true
       /\ forall C, C ∈ module_controllers M w -> isController C w = true).
Proof.
  split; [exact assertModule_result|].
  split; [exact assertController_result|].
  split; [done|].
  split; [exact assertion_errors_differ|].
  split.
  { intros C w H. simpl. unfold registerModuleClass, Js_bind.
    by rewrite assertModule_result, H. }
  split.
  { intros routePrefix middlewares C w H. unfold registerGroupModule, Js_bind.
    by rewrite assertModule_result, H. }
  split.
  { intros C w H. unfold registerController, Js_bind.
    by rewrite assertController_result, H. }
  split.
  { intros routePrefix middlewares C w H. unfold registerGroupController, Js_bind.
    by rewrite assertController_result, H. }
  split.
  { intros C w w' e HC H.
    apply registerController_thrown in H as [[H _] | [_ H]]; congruence. }
  split.
  { intros routePrefix middlewares C w w' e HC H.
    apply registerGroupController_thrown in H as [[H _] | [_ H]]; congruence. }
  split.
  { intros M w w' e HM H He. simpl in H.
    apply registerModuleClass_thrown in H
      as [[H _] | [_ [(C & HC & H & ->) | H]]]; [congruence| |congruence].
    split; [|eauto]. intros E. symmetry in E. by apply assertion_errors_differ in E. }
  split.
  { intros routePrefix middlewares M w w' e HM H He.
    apply registerGroupModule_thrown in H
      as [[H _] | [_ [(C & HC & H & ->) | H]]]; [congruence| |congruence].
    split; [|eauto]. intros E. symmetry in E. by apply assertion_errors_differ in E. }
  split.
  { intros A callback before x after w w1 w2 e. apply forEach_throw. }
  split; [exact registerModules_thrown | exact registerModules_completed].
Qed.

(** A pass over the sample's registrations followed by two more items: the
    undecorated [MailService] and the sample's [AdminModule]. *)
Lemma registration_asserts_decorators_witness :
  let registrations :=
    Sample.registrations ++ [ItemFunction MailService; ItemFunction Sample.AdminModule] in
  exists w',
    registerModules registrations Sample.codex = (w', Throw (module_error MailService))
    /\ module_error MailService = Error " MailService is missing @Module() metadata."
    /\ assertion_failed (site_modules registrations) Sample.codex
         (module_error MailService)
    /\ length (app w') = 2.
Proof.
  intros registrations.
  destruct registration_asserts_decorators
    as (_ & _ & _ & _ & _ & _ & _ & _ & _ & _ & _ & _ & _ & H & _).
  eexists. split; [vm_compute; reflexivity|].
  split; [reflexivity|]. split; [|vm_compute; reflexivity].
  eapply (H registrations); [vm_compute; reflexivity | reflexivity].
Defined.


